(** * irrigador: the RabbitMQ consumer of mensageria/irrigador/irrigador.c

    A shallow embedding of [get_env], [die_on_amqp_error] and [main].
    The process is a function of its environment (what [getenv] answers)
    and of a script of what the broker library answers to each call; it
    produces a trace of library calls and writes, and an exit status. *)

From Stdlib Require Import ZArith String Ascii DecimalString.
From stdpp Require Import base option list gmap strings.

Local Open Scope Z_scope.

(** ** C data as the program sees it *)

(** A [char *] that points to a C string is its characters before the
    terminating NUL; an [amqp_bytes_t] is [len] bytes that may hold NUL. *)
Definition NUL : ascii := "000"%char.
Definition LF : string := String "010"%char "".

Record amqp_bytes_t := mk_bytes { bytes : string }.

Definition len (b : amqp_bytes_t) : Z := Z.of_nat (String.length (bytes b)).

Definition amqp_empty_bytes : amqp_bytes_t := mk_bytes "".
Definition amqp_cstring_bytes (cstr : string) : amqp_bytes_t := mk_bytes cstr.

Definition amqp_table_t := list (string * string).
Definition amqp_empty_table : amqp_table_t := [].

Inductive amqp_response_type_enum :=
| AMQP_RESPONSE_NONE
| AMQP_RESPONSE_NORMAL
| AMQP_RESPONSE_LIBRARY_EXCEPTION
| AMQP_RESPONSE_SERVER_EXCEPTION.

Inductive amqp_sasl_method_enum :=
| AMQP_SASL_METHOD_UNDEFINED
| AMQP_SASL_METHOD_PLAIN
| AMQP_SASL_METHOD_EXTERNAL.

(** Method numbers and reply code of rabbitmq-c's amqp_framing.h. *)
Definition AMQP_CONNECTION_CLOSE_METHOD : Z := 0x000A0032.
Definition AMQP_CHANNEL_CLOSE_METHOD : Z := 0x00140028.
Definition AMQP_REPLY_SUCCESS : Z := 200.

(** [amqp_connection_close_t] and [amqp_channel_close_t] have the same
    fields in the same order; [decoded] is read only through a cast to one
    of the two, so the model keeps one record for both. *)
Record amqp_close_t := mk_close {
  reply_code : Z;               (* uint16_t *)
  reply_text : amqp_bytes_t;
  class_id : Z;
  method_id : Z
}.
Definition amqp_connection_close_t := amqp_close_t.
Definition amqp_channel_close_t := amqp_close_t.

Record amqp_method_t := mk_method {
  id_ : Z;                      (* the field [id], a uint32_t *)
  decoded : amqp_close_t
}.

Record amqp_rpc_reply_t := mk_reply {
  reply_type : amqp_response_type_enum;
  reply : amqp_method_t;
  library_error : Z
}.

Record amqp_message_t := mk_message { body : amqp_bytes_t }.

Record amqp_envelope_t := mk_envelope {
  channel : Z;
  consumer_tag : amqp_bytes_t;
  delivery_tag : Z;
  redelivered : Z;
  exchange : amqp_bytes_t;
  routing_key : amqp_bytes_t;
  message : amqp_message_t
}.

Global Instance amqp_response_type_eq_dec : EqDecision amqp_response_type_enum.
Proof. solve_decision. Defined.

(** ** printf conversions and atoi *)

(** 32-bit [int] and [unsigned] with their wrap-around. *)
Definition to_uint32 (z : Z) : Z := z mod 2 ^ 32.
Definition to_int (z : Z) : Z := (z + 2 ^ 31) mod 2 ^ 32 - 2 ^ 31.

Fixpoint until_nul (s : string) : string :=
  match s with
  | EmptyString => EmptyString
  | String c s' => if Ascii.eqb c NUL then EmptyString else String c (until_nul s')
  end.

Fixpoint take_chars (n : nat) (s : string) : string :=
  match n, s with
  | S n', String c s' => String c (take_chars n' s')
  | _, _ => EmptyString
  end.

(** [%.*s]: at most [precision] characters of the array, stopping at a NUL;
    a negative precision counts as none given (C then reads up to a NUL,
    which the model looks for inside the array only). *)
Definition fmt_precision_s (precision : Z) (s : string) : string :=
  if precision <? 0 then until_nul s
  else until_nul (take_chars (Z.to_nat precision) s).

(** [%u] *)
Definition fmt_u (z : Z) : string :=
  NilZero.string_of_uint (N.to_uint (Z.to_N (to_uint32 z))).

Definition hex_digit (n : Z) : ascii :=
  if n <? 10 then ascii_of_nat (Z.to_nat (48 + n))
  else ascii_of_nat (Z.to_nat (55 + n)).

(** [%08X] of a 32-bit value: eight upper-case digits. *)
Definition fmt_08X (z : Z) : string :=
  string_of_list_ascii
    (List.map (fun i => hex_digit (Z.land (Z.shiftr (to_uint32 z) (4 * i)) 15))
              [7; 6; 5; 4; 3; 2; 1; 0]).

Definition isspace (c : ascii) : bool :=
  let n := nat_of_ascii c in
  (n =? 32)%nat || ((9 <=? n)%nat && (n <=? 13)%nat).

Definition isdigit (c : ascii) : bool :=
  let n := nat_of_ascii c in (48 <=? n)%nat && (n <=? 57)%nat.

Fixpoint skip_space (s : string) : string :=
  match s with
  | String c s' => if isspace c then skip_space s' else s
  | EmptyString => s
  end.

Fixpoint digits_value (acc : Z) (s : string) : Z :=
  match s with
  | String c s' =>
      if isdigit c then digits_value (10 * acc + (Z.of_nat (nat_of_ascii c) - 48)) s'
      else acc
  | EmptyString => acc
  end.

(** [atoi] as glibc has it, [(int) strtol (nptr, NULL, 10)]: white space,
    an optional sign, digits; no digits give 0; the long saturates and the
    cast to int wraps. *)
Definition atoi (nptr : string) : Z :=
  let v := match skip_space nptr with
           | String "-" s' => - digits_value 0 s'
           | String "+" s' => digits_value 0 s'
           | s => digits_value 0 s
           end in
  to_int (Z.max (- 2 ^ 63) (Z.min (2 ^ 63 - 1) v)).

(** ** The process: trace, state, monad *)

Inductive event :=
| Stdout (s : string)
| Stderr (s : string)
| NewConnection
| TcpSocketNew
| SocketOpen (host : string) (port : Z)
| Login (vhost : string) (channel_max frame_max heartbeat : Z)
        (sasl_method : amqp_sasl_method_enum) (username password : string)
| ChannelOpen (ch : Z)
| GetRpcReply
| QueueDeclare (ch : Z) (queue : amqp_bytes_t)
               (passive durable exclusive auto_delete : Z) (arguments : amqp_table_t)
| BasicConsume (ch : Z) (queue consumer_tag : amqp_bytes_t)
               (no_local no_ack exclusive : Z) (arguments : amqp_table_t)
| MaybeReleaseBuffers
| ConsumeMessage
| DestroyEnvelope
| ChannelClose (ch : Z) (code : Z)
| ConnectionClose (code : Z)
| DestroyConnection.

(** What the library answers, call by call. A receive that finds
    [deliveries] used up never returns. *)
Record broker := mk_broker {
  tcp_socket_new_ok : bool;
  socket_open_status : Z;
  login_reply : amqp_rpc_reply_t;
  channel_open_reply : amqp_rpc_reply_t;
  queue_declare_reply : amqp_rpc_reply_t;
  basic_consume_reply : amqp_rpc_reply_t;
  deliveries : list (amqp_rpc_reply_t * amqp_envelope_t);
  channel_close_reply : amqp_rpc_reply_t;
  connection_close_reply : amqp_rpc_reply_t
}.

(** [rpc_reply] is the connection's record of its latest RPC, the one
    [amqp_get_rpc_reply] hands out. *)
Record proc := mk_proc {
  trace : list event;
  rpc_reply : amqp_rpc_reply_t
}.

Inductive outcome (A : Type) :=
| Ret (a : A)
| Exit (status : Z)
| Block.
Arguments Ret {A} a.
Arguments Exit {A} status.
Arguments Block {A}.

Definition M (A : Type) : Type := proc -> outcome A * proc.

Global Instance M_ret : MRet M := fun A a s => (Ret a, s).
Global Instance M_bind : MBind M := fun A B k m s =>
  match m s with
  | (Ret a, s') => k a s'
  | (Exit c, s') => (Exit c, s')
  | (Block, s') => (Block, s')
  end.

Global Instance M_fmap : FMap M := fun A B f m => a ← m; mret (f a).

Definition emit (e : event) : M unit :=
  fun s => (Ret tt, mk_proc (trace s ++ [e]) (rpc_reply s)).
Definition exit {A} (status : Z) : M A := fun s => (Exit status, s).
Definition block {A} : M A := fun s => (Block, s).
Definition printf (s : string) : M unit := emit (Stdout s).
Definition fprintf_stderr (s : string) : M unit := emit (Stderr s).

Definition set_rpc_reply (x : amqp_rpc_reply_t) : M unit :=
  fun s => (Ret tt, mk_proc (trace s) x).
Definition latest_rpc_reply : M amqp_rpc_reply_t :=
  fun s => (Ret (rpc_reply s), s).

(** The start of a process: nothing done yet, no RPC on record. *)
Definition no_reply : amqp_rpc_reply_t :=
  mk_reply AMQP_RESPONSE_NONE (mk_method 0 (mk_close 0 amqp_empty_bytes 0 0)) 0.
Definition start : proc := mk_proc [] no_reply.

(** ** The calls into rabbitmq-c

    Each one leaves its event, with the arguments it was given, and answers
    from the script. *)

Definition amqp_new_connection : M unit := emit NewConnection.

Definition amqp_tcp_socket_new (b : broker) : M bool :=
  emit TcpSocketNew;; mret (tcp_socket_new_ok b).

Definition amqp_socket_open (b : broker) (host : string) (port : Z) : M Z :=
  emit (SocketOpen host port);; mret (socket_open_status b).

Definition amqp_login (b : broker) (vhost : string) (channel_max frame_max heartbeat : Z)
    (sasl_method : amqp_sasl_method_enum) (username password : string)
    : M amqp_rpc_reply_t :=
  emit (Login vhost channel_max frame_max heartbeat sasl_method username password);;
  mret (login_reply b).

Definition amqp_channel_open (b : broker) (ch : Z) : M unit :=
  emit (ChannelOpen ch);; set_rpc_reply (channel_open_reply b).

Definition amqp_queue_declare (b : broker) (ch : Z) (queue : amqp_bytes_t)
    (passive durable exclusive auto_delete : Z) (arguments : amqp_table_t) : M unit :=
  emit (QueueDeclare ch queue passive durable exclusive auto_delete arguments);;
  set_rpc_reply (queue_declare_reply b).

Definition amqp_basic_consume (b : broker) (ch : Z) (queue consumer_tag : amqp_bytes_t)
    (no_local no_ack exclusive : Z) (arguments : amqp_table_t) : M unit :=
  emit (BasicConsume ch queue consumer_tag no_local no_ack exclusive arguments);;
  set_rpc_reply (basic_consume_reply b).

Definition amqp_get_rpc_reply : M amqp_rpc_reply_t :=
  emit GetRpcReply;; latest_rpc_reply.

Definition amqp_maybe_release_buffers : M unit := emit MaybeReleaseBuffers.
Definition amqp_destroy_envelope : M unit := emit DestroyEnvelope.

Definition amqp_channel_close (b : broker) (ch code : Z) : M amqp_rpc_reply_t :=
  emit (ChannelClose ch code);; mret (channel_close_reply b).

Definition amqp_connection_close (b : broker) (code : Z) : M amqp_rpc_reply_t :=
  emit (ConnectionClose code);; mret (connection_close_reply b).

Definition amqp_destroy_connection : M unit := emit DestroyConnection.

(** ** The program *)

Section Irrigador.

(** rabbitmq-c's table of error texts. *)
Variable amqp_error_string2 : Z -> string.

Definition get_env (environ : gmap string string) (env : string) : M string :=
  match environ !! env with
  | None =>
      printf ("env " +:+ env +:+ " is not set" +:+ LF);;
      exit 1
  | Some env_var_value => mret env_var_value
  end.

Definition die_on_amqp_error (x : amqp_rpc_reply_t) (context : string) : M unit :=
  match reply_type x with
  | AMQP_RESPONSE_NORMAL => mret tt
  | AMQP_RESPONSE_NONE =>
      fprintf_stderr (context +:+ ": missing RPC reply type!" +:+ LF);;
      exit 1
  | AMQP_RESPONSE_LIBRARY_EXCEPTION =>
      fprintf_stderr (context +:+ ": " +:+ amqp_error_string2 (library_error x) +:+ LF);;
      exit 1
  | AMQP_RESPONSE_SERVER_EXCEPTION =>
      (if id_ (reply x) =? AMQP_CONNECTION_CLOSE_METHOD then
         let m : amqp_connection_close_t := decoded (reply x) in
         fprintf_stderr (context +:+ ": server connection error " +:+ fmt_u (reply_code m)
                         +:+ "h, message: "
                         +:+ fmt_precision_s (to_int (len (reply_text m))) (bytes (reply_text m))
                         +:+ LF)
       else if id_ (reply x) =? AMQP_CHANNEL_CLOSE_METHOD then
         let m : amqp_channel_close_t := decoded (reply x) in
         fprintf_stderr (context +:+ ": server channel error " +:+ fmt_u (reply_code m)
                         +:+ "h, message: "
                         +:+ fmt_precision_s (to_int (len (reply_text m))) (bytes (reply_text m))
                         +:+ LF)
       else
         fprintf_stderr (context +:+ ": unknown server error, method id 0x"
                         +:+ fmt_08X (id_ (reply x)) +:+ LF));;
      exit 1
  end.

(** The [while (1)] of [main], one iteration per scripted receive. *)
Fixpoint consume_loop (pending : list (amqp_rpc_reply_t * amqp_envelope_t)) : M unit :=
  amqp_maybe_release_buffers;;
  emit ConsumeMessage;;
  match pending with
  | [] => block
  | (result, envelope) :: pending' =>
      if decide (reply_type result <> AMQP_RESPONSE_NORMAL) then mret tt
      else
        printf ("received message: "
                +:+ fmt_precision_s (to_int (len (body (message envelope))))
                                    (bytes (body (message envelope)))
                +:+ LF);;
        printf ("irrigating..." +:+ LF);;
        amqp_destroy_envelope;;
        consume_loop pending'
  end.

Definition main (environ : gmap string string) (b : broker) : M Z :=
  hostname ← get_env environ "RABBITMQ_HOST";
  port ← atoi <$> get_env environ "RABBITMQ_PORT";
  queue_name ← get_env environ "RABBITMQ_QUEUE";
  username ← get_env environ "RABBITMQ_USERNAME";
  password ← get_env environ "RABBITMQ_PASSWORD";
  amqp_new_connection;;
  socket ← amqp_tcp_socket_new b;
  if negb socket then
    fprintf_stderr ("failed to create socket" +:+ LF);;
    mret 1
  else
    status ← amqp_socket_open b hostname port;
    if negb (status =? 0) then
      fprintf_stderr ("failed to connect to rabbitmq" +:+ LF);;
      mret 1
    else
      x ← amqp_login b "/" 0 131072 0 AMQP_SASL_METHOD_PLAIN username password;
      die_on_amqp_error x "login";;

      amqp_channel_open b 1;;
      x ← amqp_get_rpc_reply;
      die_on_amqp_error x "opening channel";;

      amqp_queue_declare b 1 (amqp_cstring_bytes queue_name) 1 0 0 1 amqp_empty_table;;
      x ← amqp_get_rpc_reply;
      die_on_amqp_error x "declaring queue";;

      amqp_basic_consume b 1 (amqp_cstring_bytes queue_name) amqp_empty_bytes 0 1 0
                         amqp_empty_table;;
      x ← amqp_get_rpc_reply;
      die_on_amqp_error x "consuming";;

      consume_loop (deliveries b);;

      x ← amqp_channel_close b 1 AMQP_REPLY_SUCCESS;
      die_on_amqp_error x "closing channel";;
      x ← amqp_connection_close b AMQP_REPLY_SUCCESS;
      die_on_amqp_error x "closing connection";;
      amqp_destroy_connection;;

      mret 0.

(** How a process ends: with an exit status, from [exit] or from [main]'s
    return, or never, blocked in a receive. *)
Inductive ending :=
| Exited (status : Z)
| Blocked.

Definition run (environ : gmap string string) (b : broker) : ending * list event :=
  match main environ b start with
  | (Ret status, s) => (Exited status, trace s)
  | (Exit status, s) => (Exited status, trace s)
  | (Block, s) => (Blocked, trace s)
  end.

End Irrigador.

(** What reaches each stream, in order. *)
Fixpoint stdout_of (t : list event) : string :=
  match t with
  | [] => ""
  | Stdout s :: t' => s +:+ stdout_of t'
  | _ :: t' => stdout_of t'
  end.

Fixpoint stderr_of (t : list event) : string :=
  match t with
  | [] => ""
  | Stderr s :: t' => s +:+ stderr_of t'
  | _ :: t' => stderr_of t'
  end.

(** ** The reply taxonomy of the specification

    [ReplyOutcome] and [classify] follow the specification's words (its data
    model and its classification rules, in their priority order); they are
    compared below with what [die_on_amqp_error] does. *)

Inductive ReplyOutcome :=
| Normal
| MissingReplyType
| LibraryException (message : string)
| ServerConnectionError (code : Z) (text : amqp_bytes_t)
| ServerChannelError (code : Z) (text : amqp_bytes_t)
| UnknownServerError (methodId : Z).

Definition classify (error_string : Z -> string) (x : amqp_rpc_reply_t) : ReplyOutcome :=
  match reply_type x with
  | AMQP_RESPONSE_NORMAL => Normal
  | AMQP_RESPONSE_NONE => MissingReplyType
  | AMQP_RESPONSE_LIBRARY_EXCEPTION => LibraryException (error_string (library_error x))
  | AMQP_RESPONSE_SERVER_EXCEPTION =>
      if id_ (reply x) =? AMQP_CONNECTION_CLOSE_METHOD then
        ServerConnectionError (reply_code (decoded (reply x))) (reply_text (decoded (reply x)))
      else if id_ (reply x) =? AMQP_CHANNEL_CLOSE_METHOD then
        ServerChannelError (reply_code (decoded (reply x))) (reply_text (decoded (reply x)))
      else UnknownServerError (id_ (reply x))
  end.

(** The text of the diagnostic after its ["context: "]. *)
Definition report (o : ReplyOutcome) : string :=
  match o with
  | Normal => ""
  | MissingReplyType => "missing RPC reply type!"
  | LibraryException message => message
  | ServerConnectionError code text =>
      "server connection error " +:+ fmt_u code +:+ "h, message: "
      +:+ fmt_precision_s (to_int (len text)) (bytes text)
  | ServerChannelError code text =>
      "server channel error " +:+ fmt_u code +:+ "h, message: "
      +:+ fmt_precision_s (to_int (len text)) (bytes text)
  | UnknownServerError methodId =>
      "unknown server error, method id 0x" +:+ fmt_08X methodId
  end.

Definition normal (x : amqp_rpc_reply_t) : bool :=
  bool_decide (reply_type x = AMQP_RESPONSE_NORMAL).

Definition died (error_string : Z -> string) (x : amqp_rpc_reply_t) (context : string) : event :=
  Stderr (context +:+ ": " +:+ report (classify error_string x) +:+ LF).

(** ** The configuration of the specification *)

Definition required_keys : list string :=
  ["RABBITMQ_HOST"; "RABBITMQ_PORT"; "RABBITMQ_QUEUE"; "RABBITMQ_USERNAME";
   "RABBITMQ_PASSWORD"].

Record BrokerConfig := mk_config {
  host : string;
  port : Z;
  queueName : string;
  username : string;
  password : string
}.

(** The five look-ups of [main], in its order: the first key that is not
    set, or the configuration. *)
Definition load (environ : gmap string string) : string + BrokerConfig :=
  match environ !! "RABBITMQ_HOST" with
  | None => inl "RABBITMQ_HOST"
  | Some h =>
  match environ !! "RABBITMQ_PORT" with
  | None => inl "RABBITMQ_PORT"
  | Some p =>
  match environ !! "RABBITMQ_QUEUE" with
  | None => inl "RABBITMQ_QUEUE"
  | Some q =>
  match environ !! "RABBITMQ_USERNAME" with
  | None => inl "RABBITMQ_USERNAME"
  | Some u =>
  match environ !! "RABBITMQ_PASSWORD" with
  | None => inl "RABBITMQ_PASSWORD"
  | Some pw => inr (mk_config h (atoi p) q u pw)
  end end end end end.

(** ** The expected course of a run, stage by stage *)

(** What one handled delivery leaves in the trace. *)
Definition handled (d : amqp_rpc_reply_t * amqp_envelope_t) : list event :=
  [MaybeReleaseBuffers; ConsumeMessage;
   Stdout ("received message: "
           +:+ fmt_precision_s (to_int (len (body (message d.2))))
                               (bytes (body (message d.2)))
           +:+ LF);
   Stdout ("irrigating..." +:+ LF);
   DestroyEnvelope].

(** The deliveries before the first one that is not normal. *)
Fixpoint normals_prefix (ds : list (amqp_rpc_reply_t * amqp_envelope_t))
    : list (amqp_rpc_reply_t * amqp_envelope_t) :=
  match ds with
  | [] => []
  | d :: ds' => if normal d.1 then d :: normals_prefix ds' else []
  end.

Definition loop_exits (ds : list (amqp_rpc_reply_t * amqp_envelope_t)) : bool :=
  existsb (fun d => negb (normal d.1)) ds.

Definition loop_events (ds : list (amqp_rpc_reply_t * amqp_envelope_t)) : list event :=
  flat_map handled (normals_prefix ds) ++ [MaybeReleaseBuffers; ConsumeMessage].

(** One classified stage: its calls, then the rest if the reply is normal,
    the diagnostic and status 1 if not. *)
Definition rpc_stage (error_string : Z -> string) (calls : list event)
    (x : amqp_rpc_reply_t) (context : string) (rest : ending * list event)
    : ending * list event :=
  if normal x then (rest.1, calls ++ rest.2)
  else (Exited 1, calls ++ [died error_string x context]).

Definition shutdown (error_string : Z -> string) (b : broker) : ending * list event :=
  rpc_stage error_string [ChannelClose 1 AMQP_REPLY_SUCCESS]
            (channel_close_reply b) "closing channel"
  (rpc_stage error_string [ConnectionClose AMQP_REPLY_SUCCESS]
            (connection_close_reply b) "closing connection"
  (Exited 0, [DestroyConnection])).

Definition consuming (error_string : Z -> string) (b : broker) : ending * list event :=
  if loop_exits (deliveries b)
  then ((shutdown error_string b).1, loop_events (deliveries b) ++ (shutdown error_string b).2)
  else (Blocked, loop_events (deliveries b)).

Definition bootstrap (error_string : Z -> string) (c : BrokerConfig) (b : broker)
    : ending * list event :=
  rpc_stage error_string
    [Login "/" 0 131072 0 AMQP_SASL_METHOD_PLAIN (username c) (password c)]
    (login_reply b) "login"
  (rpc_stage error_string [ChannelOpen 1; GetRpcReply]
    (channel_open_reply b) "opening channel"
  (rpc_stage error_string
    [QueueDeclare 1 (mk_bytes (queueName c)) 1 0 0 1 []; GetRpcReply]
    (queue_declare_reply b) "declaring queue"
  (rpc_stage error_string
    [BasicConsume 1 (mk_bytes (queueName c)) amqp_empty_bytes 0 1 0 []; GetRpcReply]
    (basic_consume_reply b) "consuming"
  (consuming error_string b)))).

Definition session (error_string : Z -> string) (c : BrokerConfig) (b : broker)
    : ending * list event :=
  if negb (tcp_socket_new_ok b) then
    (Exited 1, [NewConnection; TcpSocketNew; Stderr ("failed to create socket" +:+ LF)])
  else if negb (socket_open_status b =? 0) then
    (Exited 1, [NewConnection; TcpSocketNew; SocketOpen (host c) (port c);
                Stderr ("failed to connect to rabbitmq" +:+ LF)])
  else
    ((bootstrap error_string c b).1,
     [NewConnection; TcpSocketNew; SocketOpen (host c) (port c)]
     ++ (bootstrap error_string c b).2).

Definition course (error_string : Z -> string) (environ : gmap string string) (b : broker)
    : ending * list event :=
  match load environ with
  | inl key => (Exited 1, [Stdout ("env " +:+ key +:+ " is not set" +:+ LF)])
  | inr c => session error_string c b
  end.

(** ** Counting events *)

Global Instance amqp_bytes_eq_dec : EqDecision amqp_bytes_t.
Proof. solve_decision. Defined.
Global Instance amqp_sasl_method_eq_dec : EqDecision amqp_sasl_method_enum.
Proof. solve_decision. Defined.
Global Instance event_eq_dec : EqDecision event.
Proof. unfold amqp_table_t. solve_decision. Defined.

Definition occurrences (e : event) (t : list event) : nat :=
  length (filter (fun e' => e' = e) t).

(** ** Conditions on the environment and on the script *)

Definition configured (environ : gmap string string) : Prop :=
  forall key, key ∈ required_keys -> is_Some (environ !! key).

Definition connected (b : broker) : Prop :=
  tcp_socket_new_ok b = true /\ socket_open_status b = 0.

Definition bootstrapped (b : broker) : Prop :=
  reply_type (login_reply b) = AMQP_RESPONSE_NORMAL
  /\ reply_type (channel_open_reply b) = AMQP_RESPONSE_NORMAL
  /\ reply_type (queue_declare_reply b) = AMQP_RESPONSE_NORMAL
  /\ reply_type (basic_consume_reply b) = AMQP_RESPONSE_NORMAL.

Definition loop_left (b : broker) : Prop :=
  Exists (fun d => reply_type d.1 <> AMQP_RESPONSE_NORMAL) (deliveries b).

Definition closed (b : broker) : Prop :=
  reply_type (channel_close_reply b) = AMQP_RESPONSE_NORMAL
  /\ reply_type (connection_close_reply b) = AMQP_RESPONSE_NORMAL.

Definition connectedb (b : broker) : bool :=
  tcp_socket_new_ok b && (socket_open_status b =? 0).

Definition bootstrappedb (b : broker) : bool :=
  normal (login_reply b) && normal (channel_open_reply b)
  && normal (queue_declare_reply b) && normal (basic_consume_reply b).

Definition closedb (b : broker) : bool :=
  normal (channel_close_reply b) && normal (connection_close_reply b).

(** ** Stages, parameters and observations *)

Inductive stage := Connect | Authenticate | OpenChannel | DeclareQueue | StartConsuming.

Definition stage_of (e : event) : option stage :=
  match e with
  | SocketOpen _ _ => Some Connect
  | Login _ _ _ _ _ _ _ => Some Authenticate
  | ChannelOpen _ => Some OpenChannel
  | QueueDeclare _ _ _ _ _ _ _ => Some DeclareQueue
  | BasicConsume _ _ _ _ _ _ _ => Some StartConsuming
  | _ => None
  end.

(** The stage operations of a trace, in the order they were invoked. *)
Definition stages (t : list event) : list stage := omap stage_of t.

Definition bootstrap_order : list stage :=
  [Connect; Authenticate; OpenChannel; DeclareQueue; StartConsuming].

Definition stage_succeeds (b : broker) (st : stage) : Prop :=
  match st with
  | Connect => socket_open_status b = 0
  | Authenticate => reply_type (login_reply b) = AMQP_RESPONSE_NORMAL
  | OpenChannel => reply_type (channel_open_reply b) = AMQP_RESPONSE_NORMAL
  | DeclareQueue => reply_type (queue_declare_reply b) = AMQP_RESPONSE_NORMAL
  | StartConsuming => reply_type (basic_consume_reply b) = AMQP_RESPONSE_NORMAL
  end.

Definition wire_parameters (e : event) : Prop :=
  match e with
  | Login vhost _ frame_max heartbeat sasl_method _ _ =>
      vhost = "/" /\ frame_max = 131072 /\ heartbeat = 0
      /\ sasl_method = AMQP_SASL_METHOD_PLAIN
  | ChannelOpen ch => ch = 1
  | QueueDeclare ch _ passive durable exclusive auto_delete _ =>
      ch = 1 /\ passive = 1 /\ durable = 0 /\ exclusive = 0 /\ auto_delete = 1
  | BasicConsume ch _ consumer_tag no_local no_ack exclusive _ =>
      ch = 1 /\ consumer_tag = amqp_empty_bytes
      /\ no_local = 0 /\ no_ack = 1 /\ exclusive = 0
  | ChannelClose ch _ => ch = 1
  | _ => True
  end.

(** What the loop leaves in the trace: writes to standard output and its
    three library calls. *)
Definition loop_event (e : event) : Prop :=
  (exists s, e = Stdout s)
  \/ e = MaybeReleaseBuffers \/ e = ConsumeMessage \/ e = DestroyEnvelope.

Definition close_event (e : event) : Prop :=
  (exists ch code, e = ChannelClose ch code) \/ (exists code, e = ConnectionClose code).

(** The two lines written for each body, body after body. *)
Fixpoint output_lines (contents : list string) : string :=
  match contents with
  | [] => ""
  | content :: contents' =>
      "received message: " +:+ content +:+ LF +:+ "irrigating..." +:+ LF
      +:+ output_lines contents'
  end.

Definition printed (d : amqp_rpc_reply_t * amqp_envelope_t) : string :=
  fmt_precision_s (to_int (len (body (message d.2)))) (bytes (body (message d.2))).

Definition from_environment (environ : gmap string string) (c : BrokerConfig) : Prop :=
  environ !! "RABBITMQ_HOST" = Some (host c)
  /\ (exists p, environ !! "RABBITMQ_PORT" = Some p /\ port c = atoi p)
  /\ environ !! "RABBITMQ_QUEUE" = Some (queueName c)
  /\ environ !! "RABBITMQ_USERNAME" = Some (username c)
  /\ environ !! "RABBITMQ_PASSWORD" = Some (password c).

(** The fields of the configuration a call takes are those of [c]. *)
Definition carries (c : BrokerConfig) (e : event) : Prop :=
  match e with
  | SocketOpen h p => h = host c /\ p = port c
  | Login _ _ _ _ _ u pw => u = username c /\ pw = password c
  | QueueDeclare _ queue _ _ _ _ _ => queue = mk_bytes (queueName c)
  | BasicConsume _ queue _ _ _ _ _ => queue = mk_bytes (queueName c)
  | _ => True
  end.

Definition same_environment (environ1 environ2 : gmap string string) : Prop :=
  forall key, key ∈ required_keys -> environ1 !! key = environ2 !! key.

Definition same_delivery (es : Z -> string)
    (d1 d2 : amqp_rpc_reply_t * amqp_envelope_t) : Prop :=
  classify es d1.1 = classify es d2.1 /\ body (message d1.2) = body (message d2.2).

(** The results the broker gives: the socket's, each reply's classification,
    each delivery's classification and body. *)
Definition same_results (es : Z -> string) (b1 b2 : broker) : Prop :=
  tcp_socket_new_ok b1 = tcp_socket_new_ok b2
  /\ socket_open_status b1 = socket_open_status b2
  /\ classify es (login_reply b1) = classify es (login_reply b2)
  /\ classify es (channel_open_reply b1) = classify es (channel_open_reply b2)
  /\ classify es (queue_declare_reply b1) = classify es (queue_declare_reply b2)
  /\ classify es (basic_consume_reply b1) = classify es (basic_consume_reply b2)
  /\ Forall2 (same_delivery es) (deliveries b1) (deliveries b2)
  /\ classify es (channel_close_reply b1) = classify es (channel_close_reply b2)
  /\ classify es (connection_close_reply b1) = classify es (connection_close_reply b2).

(** ** Sample replies, environments and scripts *)

Definition not_found : amqp_rpc_reply_t :=
  mk_reply AMQP_RESPONSE_SERVER_EXCEPTION
    (mk_method AMQP_CHANNEL_CLOSE_METHOD
       (mk_close 404 (mk_bytes "NOT_FOUND - no queue 'irrigation'") 50 10)) 0.

Definition normal_reply : amqp_rpc_reply_t :=
  mk_reply AMQP_RESPONSE_NORMAL (mk_method 0 (mk_close 0 amqp_empty_bytes 0 0)) 0.

Definition connection_lost : amqp_rpc_reply_t :=
  mk_reply AMQP_RESPONSE_LIBRARY_EXCEPTION
           (mk_method 0 (mk_close 0 amqp_empty_bytes 0 0)) (-7).

Definition delivery (n : Z) (content : string) : amqp_envelope_t :=
  mk_envelope 1 (mk_bytes "amq.ctag-1") n 0 amqp_empty_bytes (mk_bytes "irrigation")
              (mk_message (mk_bytes content)).

Definition two_valves : list (amqp_rpc_reply_t * amqp_envelope_t) :=
  [(normal_reply, delivery 1 "open_valve_1"); (normal_reply, delivery 2 "close_valve_1")].

Definition rabbitmq_env : gmap string string :=
  <["RABBITMQ_HOST" := "localhost"]>
  (<["RABBITMQ_PORT" := "5672"]>
  (<["RABBITMQ_QUEUE" := "irrigation"]>
  (<["RABBITMQ_USERNAME" := "u"]>
  (<["RABBITMQ_PASSWORD" := "p"]> ∅)))).

(** The scenario of the specification: every handshake step normal, two
    envelopes, then a receive that is not normal. *)
Definition scenario : broker :=
  mk_broker true 0 normal_reply normal_reply normal_reply normal_reply
            (two_valves ++ [(connection_lost, delivery 0 "")])
            normal_reply normal_reply.

Definition no_error_string (_ : Z) : string := "a socket error occurred".

Definition broker_env : gmap string string :=
  <["BROKER_HOST" := "localhost"]>
  (<["BROKER_PORT" := "5672"]>
  (<["BROKER_QUEUE" := "irrigation"]>
  (<["BROKER_USERNAME" := "u"]>
  (<["BROKER_PASSWORD" := "p"]> ∅)))).

(** A script whose bootstrap succeeds, whose first receive fails, and whose
    channel close then fails too. *)
Definition close_fails : broker :=
  mk_broker true 0 normal_reply normal_reply normal_reply normal_reply
            [(connection_lost, delivery 0 "")]
            connection_lost normal_reply.

Definition nul_body : string := String "a" (String NUL "b").

Definition binary_delivery : broker :=
  mk_broker true 0 normal_reply normal_reply normal_reply normal_reply
            [(normal_reply, delivery 1 nul_body); (connection_lost, delivery 0 "")]
            normal_reply normal_reply.

Definition empty_host_env : gmap string string :=
  <["RABBITMQ_HOST" := ""]> rabbitmq_env.

Definition consume_ok : amqp_rpc_reply_t :=
  mk_reply AMQP_RESPONSE_NORMAL
           (mk_method 0x003C0015 (mk_close 0 (mk_bytes "amq.ctag-1") 0 0)) 0.

(** The scenario again, told with other delivery tags and reply payloads. *)
Definition scenario_again : broker :=
  mk_broker true 0 consume_ok consume_ok consume_ok consume_ok
            [(consume_ok, delivery 7 "open_valve_1");
             (consume_ok, delivery 8 "close_valve_1");
             (connection_lost, delivery 9 "")]
            consume_ok consume_ok.

Definition larger_env : gmap string string := <["HOME" := "/root"]> rabbitmq_env.

(** ** More observations of a trace *)

(** The diagnostics written to the error stream, one per write. *)
Definition diagnostics (t : list event) : list string :=
  omap (fun e => match e with Stderr s => Some s | _ => None end) t.

(** Every [b] in the trace comes right after an [a]. *)
Definition each_preceded_by (a b : event) (t : list event) : Prop :=
  forall t1 t2, t = t1 ++ b :: t2 -> exists t0, t1 = t0 ++ [a].

(** The same, as a check along the trace; [prev] is the event before it. *)
Fixpoint guarded (a b : event) (prev : option event) (t : list event) : bool :=
  match t with
  | [] => true
  | e :: t' =>
      (if decide (e = b) then bool_decide (prev = Some a) else true)
      && guarded a b (Some e) t'
  end.

(** The classified replies of the bootstrap, each with the context [main]
    gives [die_on_amqp_error] for it, in [main]'s order. *)
Definition bootstrap_replies (b : broker) : list (string * amqp_rpc_reply_t) :=
  [("login", login_reply b);
   ("opening channel", channel_open_reply b);
   ("declaring queue", queue_declare_reply b);
   ("consuming", basic_consume_reply b)].

(** Reading upper-case hexadecimal back. *)
Definition hex_value (c : ascii) : Z :=
  let n := Z.of_nat (nat_of_ascii c) in
  if n <? 58 then n - 48 else n - 55.

Definition parse_hex (s : string) : Z :=
  fold_left (fun acc c => 16 * acc + hex_value c) (list_ascii_of_string s) 0.

(** The script [b] with other deliveries. *)
Definition with_deliveries (b : broker)
    (ds : list (amqp_rpc_reply_t * amqp_envelope_t)) : broker :=
  mk_broker (tcp_socket_new_ok b) (socket_open_status b) (login_reply b)
            (channel_open_reply b) (queue_declare_reply b) (basic_consume_reply b)
            ds (channel_close_reply b) (connection_close_reply b).

(** The characters of a text, none of them a digit. *)
Definition no_digit (s : string) : Prop :=
  Forall (fun c => isdigit c = false) (list_ascii_of_string s).

(** The scenario with a queue that does not exist. *)
Definition declare_fails : broker :=
  mk_broker true 0 normal_reply normal_reply not_found normal_reply
            two_valves normal_reply normal_reply.

(** An environment whose port is no number. *)
Definition amqp_port_env : gmap string string :=
  <["RABBITMQ_PORT" := "amqp"]> rabbitmq_env.

(** * Properties *)

(** ** The program follows the expected course *)

Lemma append_assoc (a b c : string) : (a +:+ b) +:+ c = a +:+ b +:+ c.
Proof. induction a as [|x a IH]; [reflexivity | exact (f_equal (String x) IH)]. Qed.

Section Course.

Variable es : Z -> string.

Lemma die_spec x context s :
  die_on_amqp_error es x context s =
  if normal x then (Ret tt, s)
  else (Exit 1, mk_proc (trace s ++ [died es x context]) (rpc_reply s)).
Proof.
  unfold die_on_amqp_error, died, classify, normal.
  destruct (reply_type x); simpl; try reflexivity;
    repeat (destruct (_ =? _)); simpl; rewrite ?append_assoc; reflexivity.
Qed.

Lemma consume_loop_spec ds s :
  consume_loop ds s =
  (if loop_exits ds then Ret tt else Block,
   mk_proc (trace s ++ loop_events ds) (rpc_reply s)).
Proof.
  revert s. induction ds as [|[result envelope] ds IH]; intros s.
  - unfold loop_events. simpl. unfold mbind, M_bind. simpl.
    now rewrite <- app_assoc.
  - unfold loop_events, loop_exits in *. simpl.
    unfold mbind, M_bind, normal. simpl.
    destruct (decide (reply_type result <> AMQP_RESPONSE_NORMAL)) as [Hn|Hn].
    + rewrite bool_decide_eq_false_2 by assumption. simpl.
      now rewrite <- app_assoc.
    + apply dec_stable in Hn.
      rewrite bool_decide_eq_true_2 by assumption. simpl.
      rewrite IH. simpl. now rewrite <- !app_assoc.
Qed.

Lemma run_course environ b : run es environ b = course es environ b.
Proof.
  unfold run, main, course, load, get_env.
  unfold fmap, M_fmap, mbind, M_bind, mret, M_ret.
  destruct (environ !! "RABBITMQ_HOST") as [h|]; [|reflexivity].
  destruct (environ !! "RABBITMQ_PORT") as [p|]; [|reflexivity].
  destruct (environ !! "RABBITMQ_QUEUE") as [q|]; [|reflexivity].
  destruct (environ !! "RABBITMQ_USERNAME") as [u|]; [|reflexivity].
  destruct (environ !! "RABBITMQ_PASSWORD") as [pw|]; [|reflexivity].
  unfold session, bootstrap, consuming, shutdown, rpc_stage. simpl.
  destruct (tcp_socket_new_ok b); [|reflexivity]. simpl.
  destruct (socket_open_status b =? 0); [|reflexivity]. simpl.
  rewrite die_spec. destruct (normal (login_reply b)); [|reflexivity]. simpl.
  rewrite die_spec. destruct (normal (channel_open_reply b)); [|reflexivity]. simpl.
  rewrite die_spec. destruct (normal (queue_declare_reply b)); [|reflexivity]. simpl.
  rewrite die_spec. destruct (normal (basic_consume_reply b)); [|reflexivity]. simpl.
  rewrite consume_loop_spec. destruct (loop_exits (deliveries b)); [|reflexivity]. simpl.
  rewrite die_spec. destruct (normal (channel_close_reply b)); simpl;
    [|rewrite <- !app_assoc; reflexivity].
  rewrite die_spec. destruct (normal (connection_close_reply b)); simpl;
    rewrite <- !app_assoc; reflexivity.
Qed.

End Course.

(** ** Counting, and the deliveries before the loop is left *)

Lemma occurrences_app e t1 t2 :
  occurrences e (t1 ++ t2) = (occurrences e t1 + occurrences e t2)%nat.
Proof. unfold occurrences. now rewrite filter_app, length_app. Qed.

Lemma occurrences_handled e ds :
  occurrences e (flat_map handled ds)
  = list_sum (List.map (fun d => occurrences e (handled d)) ds).
Proof.
  induction ds as [|d ds IH]; [reflexivity|].
  change (list_sum (List.map ?g (d :: ds))) with (g d + list_sum (List.map g ds))%nat.
  cbn [flat_map]. now rewrite occurrences_app, IH.
Qed.

Lemma normals_prefix_app received rest :
  Forall (fun d => reply_type d.1 = AMQP_RESPONSE_NORMAL) received ->
  normals_prefix (received ++ rest) = received ++ normals_prefix rest.
Proof.
  induction 1 as [|d received Hd _ IH]; [reflexivity|].
  simpl. unfold normal. rewrite bool_decide_eq_true_2 by assumption. now rewrite IH.
Qed.

Lemma normals_prefix_stop last rest :
  reply_type last.1 <> AMQP_RESPONSE_NORMAL -> normals_prefix (last :: rest) = [].
Proof. intros H. simpl. unfold normal. now rewrite bool_decide_eq_false_2. Qed.

Lemma normals_prefix_all ds :
  Forall (fun d => reply_type d.1 = AMQP_RESPONSE_NORMAL) ds -> normals_prefix ds = ds.
Proof.
  intros H. rewrite <- (app_nil_r ds) at 1.
  rewrite normals_prefix_app by assumption. simpl. apply app_nil_r.
Qed.

Lemma loop_exits_spec ds :
  loop_exits ds = true <->
  Exists (fun d => reply_type d.1 <> AMQP_RESPONSE_NORMAL) ds.
Proof.
  unfold loop_exits. induction ds as [|d ds IH]; simpl.
  - split; [discriminate | intros H; inversion H].
  - rewrite Exists_cons, orb_true_iff, IH. unfold normal.
    rewrite negb_true_iff, bool_decide_eq_false. reflexivity.
Qed.

Lemma loop_exits_all_normal ds :
  Forall (fun d => reply_type d.1 = AMQP_RESPONSE_NORMAL) ds -> loop_exits ds = false.
Proof.
  induction 1 as [|d ds Hd _ IH]; [reflexivity|].
  unfold loop_exits in *. simpl. unfold normal at 1.
  rewrite bool_decide_eq_true_2 by assumption. exact IH.
Qed.

Lemma loop_exits_at received last rest :
  reply_type last.1 <> AMQP_RESPONSE_NORMAL -> loop_exits (received ++ last :: rest) = true.
Proof.
  intros H. apply loop_exits_spec, Exists_app. right. now constructor.
Qed.

(** ** The classifier *)

(** C3: [die_on_amqp_error] returns to its caller, having done nothing, on
    a normal reply; on a missing reply type, a library exception and a
    server exception (a connection close or a channel close, each with its
    code and text, or any other method, with its number) it writes one
    diagnostic to the error stream and ends the process; every reply that
    is not normal ends the process with status 1. *)
Theorem die_on_amqp_error_classifies (es : Z -> string) (x : amqp_rpc_reply_t)
    (context : string) (s : proc) :
  let dies_with diagnostic :=
    die_on_amqp_error es x context s
    = (Exit 1, mk_proc (trace s ++ [Stderr (context +:+ ": " +:+ diagnostic +:+ LF)])
                       (rpc_reply s)) in
  (reply_type x = AMQP_RESPONSE_NORMAL ->
     die_on_amqp_error es x context s = (Ret tt, s)) /\
  (reply_type x = AMQP_RESPONSE_NONE -> dies_with "missing RPC reply type!") /\
  (reply_type x = AMQP_RESPONSE_LIBRARY_EXCEPTION -> dies_with (es (library_error x))) /\
  (reply_type x = AMQP_RESPONSE_SERVER_EXCEPTION ->
     id_ (reply x) = AMQP_CONNECTION_CLOSE_METHOD ->
     dies_with ("server connection error " +:+ fmt_u (reply_code (decoded (reply x)))
                +:+ "h, message: "
                +:+ fmt_precision_s (to_int (len (reply_text (decoded (reply x)))))
                                    (bytes (reply_text (decoded (reply x)))))) /\
  (reply_type x = AMQP_RESPONSE_SERVER_EXCEPTION ->
     id_ (reply x) = AMQP_CHANNEL_CLOSE_METHOD ->
     dies_with ("server channel error " +:+ fmt_u (reply_code (decoded (reply x)))
                +:+ "h, message: "
                +:+ fmt_precision_s (to_int (len (reply_text (decoded (reply x)))))
                                    (bytes (reply_text (decoded (reply x)))))) /\
  (reply_type x = AMQP_RESPONSE_SERVER_EXCEPTION ->
     id_ (reply x) <> AMQP_CONNECTION_CLOSE_METHOD ->
     id_ (reply x) <> AMQP_CHANNEL_CLOSE_METHOD ->
     dies_with ("unknown server error, method id 0x" +:+ fmt_08X (id_ (reply x)))) /\
  (reply_type x <> AMQP_RESPONSE_NORMAL ->
     (die_on_amqp_error es x context s).1 = Exit 1).
Proof.
  intros dies_with. subst dies_with. cbv beta.
  rewrite die_spec. unfold died, classify, normal.
  repeat split.
  - intros ->. reflexivity.
  - intros ->. reflexivity.
  - intros ->. reflexivity.
  - intros -> ->. reflexivity.
  - intros -> ->. reflexivity.
  - intros -> H1 H2.
    apply Z.eqb_neq in H1, H2. rewrite H1, H2. reflexivity.
  - intros H. rewrite bool_decide_eq_false_2 by assumption. reflexivity.
Qed.

Lemma die_on_amqp_error_classifies_witness :
  die_on_amqp_error (fun _ => "") not_found "declaring queue" start
  = (Exit 1,
     mk_proc [Stderr ("declaring queue: server channel error 404h, "
                      +:+ "message: NOT_FOUND - no queue 'irrigation'" +:+ LF)]
             no_reply).
Proof.
  destruct (die_on_amqp_error_classifies (fun _ => "") not_found "declaring queue" start)
    as (_ & _ & _ & _ & H & _).
  exact (H eq_refl eq_refl).
Defined.

(** ** The consume loop *)

Lemma occurrences_cons e e' t :
  occurrences e (e' :: t)
  = if decide (e' = e) then S (occurrences e t) else occurrences e t.
Proof. unfold occurrences. rewrite filter_cons. now destruct (decide (e' = e)). Qed.

Lemma list_sum_map_const {A} (f : A -> nat) (n : nat) (l : list A) :
  (forall a, f a = n) -> list_sum (List.map f l) = (length l * n)%nat.
Proof.
  intros Hf. induction l as [|a l IH]; [reflexivity|].
  change (list_sum (List.map f (a :: l))) with (f a + list_sum (List.map f l))%nat.
  rewrite IH, Hf. simpl. lia.
Qed.

Ltac count_events :=
  repeat (rewrite occurrences_cons; case_decide;
          cbn [String.append LF] in *; try discriminate; try congruence);
  try reflexivity.

Lemma irrigating_once d :
  occurrences (Stdout ("irrigating..." +:+ LF)) (handled d) = 1%nat.
Proof. unfold handled. count_events. Qed.

Lemma received_once d : occurrences ConsumeMessage (handled d) = 1%nat.
Proof. unfold handled. count_events. Qed.

(** C1: when the broker yields N normal receive outcomes and then one that
    is not normal, the loop returns, having handled each of the N envelopes
    once and in order (N lines of irrigation, N + 1 receives), and it
    returns at that outcome only: cut anywhere before it, the script leaves
    the loop waiting in its receive. *)
Theorem consume_loop_handles_each
    (received : list (amqp_rpc_reply_t * amqp_envelope_t))
    (last : amqp_rpc_reply_t * amqp_envelope_t)
    (rest : list (amqp_rpc_reply_t * amqp_envelope_t)) (s : proc) :
  Forall (fun d => reply_type d.1 = AMQP_RESPONSE_NORMAL) received ->
  reply_type last.1 <> AMQP_RESPONSE_NORMAL ->
  let t := flat_map handled received ++ [MaybeReleaseBuffers; ConsumeMessage] in
  consume_loop (received ++ last :: rest) s
    = (Ret tt, mk_proc (trace s ++ t) (rpc_reply s))
  /\ occurrences (Stdout ("irrigating..." +:+ LF)) t = length received
  /\ occurrences ConsumeMessage t = S (length received)
  /\ (forall k, (k <= length received)%nat ->
        (consume_loop (take k received) s).1 = Block).
Proof.
  intros Hnormal Hlast t. subst t. repeat split.
  - rewrite consume_loop_spec, loop_exits_at by assumption.
    unfold loop_events.
    rewrite normals_prefix_app, normals_prefix_stop, app_nil_r by assumption.
    reflexivity.
  - rewrite occurrences_app, occurrences_handled.
    rewrite (list_sum_map_const _ 1) by apply irrigating_once.
    replace (occurrences _ [MaybeReleaseBuffers; ConsumeMessage]) with 0%nat
      by (symmetry; count_events).
    lia.
  - rewrite occurrences_app, occurrences_handled.
    rewrite (list_sum_map_const _ 1) by apply received_once.
    replace (occurrences _ [MaybeReleaseBuffers; ConsumeMessage]) with 1%nat
      by (symmetry; count_events).
    lia.
  - intros k _. rewrite consume_loop_spec.
    rewrite loop_exits_all_normal; [reflexivity|].
    now apply Forall_take.
Qed.

Lemma consume_loop_handles_each_witness :
  consume_loop (two_valves ++ (connection_lost, delivery 0 "") :: two_valves) start
  = (Ret tt,
     mk_proc [MaybeReleaseBuffers; ConsumeMessage;
              Stdout ("received message: open_valve_1" +:+ LF);
              Stdout ("irrigating..." +:+ LF); DestroyEnvelope;
              MaybeReleaseBuffers; ConsumeMessage;
              Stdout ("received message: close_valve_1" +:+ LF);
              Stdout ("irrigating..." +:+ LF); DestroyEnvelope;
              MaybeReleaseBuffers; ConsumeMessage]
             no_reply).
Proof.
  refine (proj1 (consume_loop_handles_each two_valves (connection_lost, delivery 0 "")
                   two_valves start _ _)).
  - repeat constructor.
  - discriminate.
Defined.

(** ** The environment and the endings *)

Lemma normal_true x : normal x = true <-> reply_type x = AMQP_RESPONSE_NORMAL.
Proof. apply bool_decide_eq_true. Qed.

Lemma normal_false x : normal x = false <-> reply_type x <> AMQP_RESPONSE_NORMAL.
Proof. apply bool_decide_eq_false. Qed.

Lemma required_keys_cases (P : string -> Prop) :
  (forall key, key ∈ required_keys -> P key) <->
  P "RABBITMQ_HOST" /\ P "RABBITMQ_PORT" /\ P "RABBITMQ_QUEUE"
  /\ P "RABBITMQ_USERNAME" /\ P "RABBITMQ_PASSWORD".
Proof.
  unfold required_keys. split.
  - intros H. repeat split; apply H; set_solver.
  - intros (H1 & H2 & H3 & H4 & H5) key Hin.
    repeat (apply elem_of_cons in Hin as [->|Hin]; [assumption|]).
    inversion Hin.
Qed.

Lemma load_inr environ c :
  load environ = inr c <->
  environ !! "RABBITMQ_HOST" = Some (host c)
  /\ (exists p, environ !! "RABBITMQ_PORT" = Some p /\ port c = atoi p)
  /\ environ !! "RABBITMQ_QUEUE" = Some (queueName c)
  /\ environ !! "RABBITMQ_USERNAME" = Some (username c)
  /\ environ !! "RABBITMQ_PASSWORD" = Some (password c).
Proof.
  unfold load. split.
  - repeat (case_match; try discriminate). intros [= <-]. simpl. eauto 10.
  - intros (-> & (p & -> & Hp) & -> & -> & ->). destruct c. simpl in *. now subst.
Qed.

Lemma load_configured environ :
  configured environ <-> exists c, load environ = inr c.
Proof.
  unfold configured. rewrite required_keys_cases. split.
  - intros ([h Hh] & [p Hp] & [q Hq] & [u Hu] & [pw Hpw]).
    exists (mk_config h (atoi p) q u pw). apply load_inr. simpl. eauto 10.
  - intros [c Hc]. apply load_inr in Hc as (H1 & (p & H2 & _) & H3 & H4 & H5).
    rewrite H1, H2, H3, H4, H5. eauto 10.
Qed.

(** The key [load] stops at is the first one, in [main]'s order, that is
    not set. *)
Lemma load_inl environ key :
  load environ = inl key ->
  exists before after,
    required_keys = before ++ key :: after
    /\ environ !! key = None
    /\ forall k, k ∈ before -> is_Some (environ !! k).
Proof.
  unfold load, required_keys.
  destruct (environ !! "RABBITMQ_HOST") eqn:H1;
    [|intros [= <-]; exists []; eexists; split; [reflexivity|]; split;
      [assumption | intros k Hk; inversion Hk]].
  destruct (environ !! "RABBITMQ_PORT") eqn:H2;
    [|intros [= <-]; exists ["RABBITMQ_HOST"]; eexists; split; [reflexivity|]; split;
      [assumption | intros k Hk;
        repeat (apply elem_of_cons in Hk as [->|Hk]; [eauto|]); inversion Hk]].
  destruct (environ !! "RABBITMQ_QUEUE") eqn:H3;
    [|intros [= <-]; exists ["RABBITMQ_HOST"; "RABBITMQ_PORT"]; eexists;
      split; [reflexivity|]; split;
      [assumption | intros k Hk;
        repeat (apply elem_of_cons in Hk as [->|Hk]; [eauto|]); inversion Hk]].
  destruct (environ !! "RABBITMQ_USERNAME") eqn:H4;
    [|intros [= <-]; exists ["RABBITMQ_HOST"; "RABBITMQ_PORT"; "RABBITMQ_QUEUE"]; eexists;
      split; [reflexivity|]; split;
      [assumption | intros k Hk;
        repeat (apply elem_of_cons in Hk as [->|Hk]; [eauto|]); inversion Hk]].
  destruct (environ !! "RABBITMQ_PASSWORD") eqn:H5; [discriminate|].
  intros [= <-].
  exists ["RABBITMQ_HOST"; "RABBITMQ_PORT"; "RABBITMQ_QUEUE"; "RABBITMQ_USERNAME"].
  eexists. split; [reflexivity|]. split; [assumption|].
  intros k Hk. repeat (apply elem_of_cons in Hk as [->|Hk]; [eauto|]). inversion Hk.
Qed.

Lemma connectedb_spec b : connectedb b = true <-> connected b.
Proof.
  unfold connectedb, connected. now rewrite andb_true_iff, Z.eqb_eq.
Qed.

Lemma bootstrappedb_spec b : bootstrappedb b = true <-> bootstrapped b.
Proof.
  unfold bootstrappedb, bootstrapped. rewrite !andb_true_iff, !normal_true. tauto.
Qed.

Lemma closedb_spec b : closedb b = true <-> closed b.
Proof. unfold closedb, closed. now rewrite andb_true_iff, !normal_true. Qed.

Ltac course_cases :=
  unfold course, session, bootstrap, consuming, shutdown, rpc_stage;
  repeat match goal with
    | |- context [match load ?e with _ => _ end] => destruct (load e) eqn:?
    | |- context [if negb ?c then _ else _] => destruct c eqn:?; cbn [negb]
    | |- context [if ?c then _ else _] => destruct c eqn:?
    end;
  cbn [fst snd].

Lemma ending_cases es environ b :
  (run es environ b).1 =
  match load environ with
  | inl _ => Exited 1
  | inr _ =>
      if connectedb b && bootstrappedb b then
        if loop_exits (deliveries b) then
          if closedb b then Exited 0 else Exited 1
        else Blocked
      else Exited 1
  end.
Proof.
  rewrite run_course. unfold connectedb, bootstrappedb, closedb.
  course_cases; simpl in *; try reflexivity; congruence.
Qed.

(** ** Exit status *)

(** C4: the status is 0 exactly when the environment is complete, the
    socket connects, the four bootstrap replies are normal, the loop is left
    and both closing replies are normal; it is 1 when a required variable is
    missing, when the socket fails, and when a reply is not normal at a
    bootstrap stage or at one of the two closing steps. *)
Theorem exit_status (es : Z -> string) (environ : gmap string string) (b : broker) :
  ((run es environ b).1 = Exited 0 <->
     configured environ /\ connected b /\ bootstrapped b /\ loop_left b /\ closed b)
  /\ ((exists key, key ∈ required_keys /\ environ !! key = None) ->
        (run es environ b).1 = Exited 1)
  /\ (configured environ -> ~ connected b -> (run es environ b).1 = Exited 1)
  /\ (configured environ -> connected b -> ~ bootstrapped b ->
        (run es environ b).1 = Exited 1)
  /\ (configured environ -> connected b -> bootstrapped b -> loop_left b ->
        ~ closed b -> (run es environ b).1 = Exited 1).
Proof.
  rewrite ending_cases.
  pose proof (load_configured environ) as Hcfg.
  pose proof (connectedb_spec b) as Hconn.
  pose proof (bootstrappedb_spec b) as Hboot.
  pose proof (closedb_spec b) as Hclosed.
  pose proof (loop_exits_spec (deliveries b)) as Hloop. fold (loop_left b) in Hloop.
  destruct (load environ) as [key|c] eqn:Hload.
  - assert (~ configured environ) as Hno
      by (intros Hc; apply Hcfg in Hc as [c Hc]; discriminate).
    repeat split; try tauto; try discriminate.
  - assert (configured environ) as Hyes by (apply Hcfg; eauto).
    destruct (connectedb b), (bootstrappedb b), (loop_exits (deliveries b)), (closedb b);
      cbn [andb];
      (split; [|split; [|split; [|split]]]);
      try (intros (key & Hin & Hnone); destruct (Hyes key Hin) as [v Hv]; congruence);
      intuition (try discriminate; try congruence).
Qed.

Lemma rabbitmq_env_configured : configured rabbitmq_env.
Proof.
  unfold configured.
  apply (proj2 (required_keys_cases (fun key => is_Some (rabbitmq_env !! key)))).
  repeat split; eexists; vm_compute; reflexivity.
Defined.

Lemma exit_status_witness : (run no_error_string rabbitmq_env scenario).1 = Exited 0.
Proof.
  apply (proj1 (exit_status no_error_string rabbitmq_env scenario)).
  split; [exact rabbitmq_env_configured|].
  split; [split; reflexivity|].
  split; [repeat split|].
  split; [|split; reflexivity].
  unfold loop_left. simpl. do 2 apply Exists_cons_tl. apply Exists_cons_hd.
  discriminate.
Defined.

(** ** The required environment *)

(** C5, as stated, fails: with BROKER_HOST (and every other BROKER_ name)
    absent the process goes on to call the broker and ends with status 0;
    with all five BROKER_ names set it stops for a name that is not one of
    them. *)
Lemma broker_names_counterexample :
  (rabbitmq_env !! "BROKER_HOST" = None
   /\ (run no_error_string rabbitmq_env scenario).1 = Exited 0
   /\ SocketOpen "localhost" 5672 ∈ (run no_error_string rabbitmq_env scenario).2)
  /\ ((forall key,
         key ∈ ["BROKER_HOST"; "BROKER_PORT"; "BROKER_QUEUE"; "BROKER_USERNAME";
                "BROKER_PASSWORD"] -> is_Some (broker_env !! key))
      /\ run no_error_string broker_env scenario
         = (Exited 1, [Stdout ("env RABBITMQ_HOST is not set" +:+ LF)])).
Proof.
  split; [split; [|split]|split].
  - vm_compute. reflexivity.
  - vm_compute. reflexivity.
  - vm_compute. repeat constructor.
  - intros key Hin.
    repeat (apply elem_of_cons in Hin as [->|Hin];
            [eexists; vm_compute; reflexivity|]).
    inversion Hin.
  - vm_compute. reflexivity.
Qed.

(** C5, amended: the five required variables are RABBITMQ_HOST,
    RABBITMQ_PORT, RABBITMQ_QUEUE, RABBITMQ_USERNAME and RABBITMQ_PASSWORD.
    When one of them is absent the process ends with status 1 having done
    nothing but write, to standard output, the line that names the first
    absent one in that order, which is the absent key itself when it is the
    only one; when all five are set the process goes on to the library. *)
Theorem required_environment (es : Z -> string) (environ : gmap string string)
    (b : broker) :
  (forall k, k ∈ required_keys -> environ !! k = None ->
     exists key before after,
       required_keys = before ++ key :: after
       /\ environ !! key = None
       /\ (forall k', k' ∈ before -> is_Some (environ !! k'))
       /\ run es environ b = (Exited 1, [Stdout ("env " +:+ key +:+ " is not set" +:+ LF)])
       /\ ((forall k', k' ∈ required_keys -> k' <> k -> is_Some (environ !! k')) ->
           key = k))
  /\ (configured environ -> exists t, (run es environ b).2 = NewConnection :: t).
Proof.
  rewrite run_course. unfold course. split.
  - intros k Hk Hnone.
    destruct (load environ) as [key|c] eqn:Hload.
    + destruct (load_inl _ _ Hload) as (before & after & Hsplit & Hkey & Hbefore).
      exists key, before, after. repeat split; try assumption.
      intros Honly. destruct (decide (key = k)) as [|Hne]; [assumption|].
      assert (key ∈ required_keys) as Hin
        by (rewrite Hsplit; apply elem_of_app; right; apply list_elem_of_here).
      destruct (Honly key Hin Hne) as [v Hv]. congruence.
    + assert (configured environ) as Hc by (apply load_configured; eauto).
      destruct (Hc k Hk) as [v Hv]. congruence.
  - intros Hc. apply load_configured in Hc as [c ->].
    unfold session.
    destruct (tcp_socket_new_ok b); cbn [negb]; [|eauto].
    destruct (socket_open_status b =? 0); cbn [negb]; eauto.
Qed.

Lemma required_environment_witness :
  run no_error_string (delete "RABBITMQ_QUEUE" rabbitmq_env) scenario
  = (Exited 1, [Stdout ("env RABBITMQ_QUEUE is not set" +:+ LF)]).
Proof.
  assert ("RABBITMQ_QUEUE" ∈ required_keys) as Hin by (do 2 right; left).
  assert (delete "RABBITMQ_QUEUE" rabbitmq_env !! "RABBITMQ_QUEUE" = None) as Hnone
    by (vm_compute; reflexivity).
  destruct (proj1 (required_environment no_error_string
                     (delete "RABBITMQ_QUEUE" rabbitmq_env) scenario)
              "RABBITMQ_QUEUE" Hin Hnone)
    as (key & before & after & _ & _ & _ & Hrun & Honly).
  rewrite Hrun, Honly; [reflexivity|].
  intros k' Hk' Hne. unfold required_keys in Hk'.
  repeat (apply elem_of_cons in Hk' as [->|Hk'];
          [first [congruence | eexists; vm_compute; reflexivity]|]).
  inversion Hk'.
Defined.

(** ** The order of the bootstrap stages *)

Lemma stages_app t1 t2 : stages (t1 ++ t2) = stages t1 ++ stages t2.
Proof. apply omap_app. Qed.

Lemma stages_handled ds : stages (flat_map handled ds) = [].
Proof.
  induction ds as [|d ds IH]; [reflexivity|].
  cbn [flat_map]. rewrite stages_app, IH. reflexivity.
Qed.

Lemma stages_loop ds : stages (loop_events ds) = [].
Proof. unfold loop_events. rewrite stages_app, stages_handled. reflexivity. Qed.

Ltac reflect_hyps :=
  repeat match goal with
    | H : normal _ = true |- _ => apply normal_true in H
    | H : normal _ = false |- _ => apply normal_false in H
    | H : (_ =? _) = true |- _ => apply Z.eqb_eq in H
    | H : (_ =? _) = false |- _ => apply Z.eqb_neq in H
    end.

Ltac elems :=
  repeat match goal with
    | H : _ ∈ _ :: _ |- _ => apply elem_of_cons in H as [H|H]
    | H : _ ∈ [] |- _ => inversion H
    | H : _ ∈ _ ++ _ |- _ => apply elem_of_app in H as [H|H]
    end.

(** C2: the stage operations of every run are an initial part of connect,
    authenticate, open-channel, declare-queue, start-consuming, so none comes
    twice, none is skipped and none comes out of order; a stage is invoked
    only when the stage before it succeeded; and a stage that does not
    succeed is the last one invoked, the process ending with status 1. *)
Theorem bootstrap_in_order (es : Z -> string) (environ : gmap string string) (b : broker) :
  let invoked := stages (run es environ b).2 in
  invoked `prefix_of` bootstrap_order
  /\ (forall st st',
        (st, st') ∈ [(Connect, Authenticate); (Authenticate, OpenChannel);
                     (OpenChannel, DeclareQueue); (DeclareQueue, StartConsuming)] ->
        st' ∈ invoked -> stage_succeeds b st)
  /\ (forall st, st ∈ invoked -> ~ stage_succeeds b st ->
        (run es environ b).1 = Exited 1 /\ last invoked = Some st).
Proof.
  cbv zeta. rewrite run_course.
  course_cases; reflect_hyps;
    rewrite ?stages_app, ?stages_loop; unfold died, stages; simpl;
    (split; [|split]);
    try (eexists; reflexivity);
    try (intros st st' Hpair Hin; elems; try discriminate;
         injection Hpair as -> ->; try discriminate; assumption);
    try (intros st Hin Hfail; elems; subst; cbn [stage_succeeds] in Hfail;
         try contradiction; split; reflexivity).
Qed.

Lemma bootstrap_in_order_witness :
  stages (run no_error_string rabbitmq_env scenario).2 = bootstrap_order
  /\ stage_succeeds scenario OpenChannel.
Proof.
  split; [vm_compute; reflexivity|].
  refine (proj1 (proj2 (bootstrap_in_order no_error_string rabbitmq_env scenario))
            OpenChannel DeclareQueue _ _).
  - do 2 right. left.
  - vm_compute. do 3 right. left.
Defined.

(** ** Wire-level parameters *)

Lemma handled_loop_event ds e : e ∈ flat_map handled ds -> loop_event e.
Proof.
  unfold loop_event. induction ds as [|d ds IH]; cbn [flat_map]; intros Hin.
  - inversion Hin.
  - apply elem_of_app in Hin as [Hin|Hin]; [|auto].
    unfold handled in Hin. elems; subst; eauto.
Qed.

Lemma loop_events_loop_event ds e : e ∈ loop_events ds -> loop_event e.
Proof.
  unfold loop_events. intros Hin. apply elem_of_app in Hin as [Hin|Hin].
  - eapply handled_loop_event; eassumption.
  - unfold loop_event. elems; subst; eauto.
Qed.

Ltac loop_elem H :=
  apply loop_events_loop_event in H as [[? H]|[H|[H|H]]].

(** C6: every call a run makes carries the wire-level parameters: login on
    virtual host "/" with the plain mechanism, frame size 131072 and
    heartbeat 0; channel 1 in each channel operation; the queue declared with
    passive 1, durable 0, exclusive 0, auto-delete 1; the consumer started
    with the empty consumer tag, no-local 0, no-ack 1, exclusive 0. *)
Theorem wire_level_parameters (es : Z -> string) (environ : gmap string string)
    (b : broker) (e : event) :
  e ∈ (run es environ b).2 -> wire_parameters e.
Proof.
  rewrite run_course.
  course_cases; unfold died; intros Hin; elems;
    try (loop_elem Hin); subst; cbn [wire_parameters]; auto.
Qed.

Lemma wire_level_parameters_witness :
  wire_parameters (Login "/" 0 131072 0 AMQP_SASL_METHOD_PLAIN "u" "p")
  /\ wire_parameters (QueueDeclare 1 (mk_bytes "irrigation") 1 0 0 1 [])
  /\ wire_parameters (BasicConsume 1 (mk_bytes "irrigation") amqp_empty_bytes 0 1 0 []).
Proof.
  split; [|split];
    (apply (wire_level_parameters no_error_string rabbitmq_env scenario);
     vm_compute; repeat constructor).
Defined.

(** ** Shutdown *)

(** C7, as stated, fails: the loop has started and has been left, the
    channel close is invoked, and the connection close never is. *)
Lemma shutdown_counterexample :
  run no_error_string rabbitmq_env close_fails
  = (Exited 1,
     [NewConnection; TcpSocketNew; SocketOpen "localhost" 5672;
      Login "/" 0 131072 0 AMQP_SASL_METHOD_PLAIN "u" "p";
      ChannelOpen 1; GetRpcReply;
      QueueDeclare 1 (mk_bytes "irrigation") 1 0 0 1 []; GetRpcReply;
      BasicConsume 1 (mk_bytes "irrigation") amqp_empty_bytes 0 1 0 []; GetRpcReply;
      MaybeReleaseBuffers; ConsumeMessage;
      ChannelClose 1 200;
      Stderr ("closing channel: a socket error occurred" +:+ LF)])
  /\ occurrences (ConnectionClose AMQP_REPLY_SUCCESS)
                 (run no_error_string rabbitmq_env close_fails).2 = 0%nat.
Proof. split; vm_compute; reflexivity. Qed.

(** C7, amended: once the loop has started and has been left, the channel
    close is invoked, once, and nothing was closed before it. If its reply
    is normal the connection close follows, once, and the status is 0 when
    that reply is normal too and 1, after a diagnostic, when it is not. If
    the reply to the channel close is not normal the process writes the
    diagnostic and ends with status 1, the connection close not invoked. *)
Theorem shutdown_after_loop (es : Z -> string) (environ : gmap string string)
    (b : broker) :
  ConsumeMessage ∈ (run es environ b).2 ->
  (run es environ b).1 <> Blocked ->
  exists before,
    (forall e, e ∈ before -> ~ close_event e)
    /\ (reply_type (channel_close_reply b) = AMQP_RESPONSE_NORMAL ->
        reply_type (connection_close_reply b) = AMQP_RESPONSE_NORMAL ->
        run es environ b
        = (Exited 0,
           before ++ [ChannelClose 1 AMQP_REPLY_SUCCESS;
                      ConnectionClose AMQP_REPLY_SUCCESS; DestroyConnection]))
    /\ (reply_type (channel_close_reply b) = AMQP_RESPONSE_NORMAL ->
        reply_type (connection_close_reply b) <> AMQP_RESPONSE_NORMAL ->
        run es environ b
        = (Exited 1,
           before ++ [ChannelClose 1 AMQP_REPLY_SUCCESS;
                      ConnectionClose AMQP_REPLY_SUCCESS;
                      Stderr ("closing connection: "
                              +:+ report (classify es (connection_close_reply b))
                              +:+ LF)]))
    /\ (reply_type (channel_close_reply b) <> AMQP_RESPONSE_NORMAL ->
        run es environ b
        = (Exited 1,
           before ++ [ChannelClose 1 AMQP_REPLY_SUCCESS;
                      Stderr ("closing channel: "
                              +:+ report (classify es (channel_close_reply b))
                              +:+ LF)])).
Proof.
  rewrite run_course.
  course_cases; unfold died; intros Hin Hend;
    try (exfalso; elems; discriminate);
    try (exfalso; apply Hend; reflexivity);
    reflect_hyps;
    match goal with
    | c : BrokerConfig |- _ =>
        exists ([NewConnection; TcpSocketNew; SocketOpen (host c) (port c);
                 Login "/" 0 131072 0 AMQP_SASL_METHOD_PLAIN (username c) (password c);
                 ChannelOpen 1; GetRpcReply;
                 QueueDeclare 1 (mk_bytes (queueName c)) 1 0 0 1 []; GetRpcReply;
                 BasicConsume 1 (mk_bytes (queueName c)) amqp_empty_bytes 0 1 0 [];
                 GetRpcReply] ++ loop_events (deliveries b))
    end;
    (split; [|split; [|split]]);
    try (intros e He [(ch & code & ->)|(code & ->)]; elems;
         try discriminate; loop_elem He; discriminate);
    try (intros; contradiction);
    try (intros; simpl; rewrite <- ?app_assoc; reflexivity).
Qed.

Lemma shutdown_after_loop_witness :
  exists before,
    run no_error_string rabbitmq_env close_fails
    = (Exited 1,
       before ++ [ChannelClose 1 AMQP_REPLY_SUCCESS;
                  Stderr ("closing channel: a socket error occurred" +:+ LF)]).
Proof.
  destruct (shutdown_after_loop no_error_string rabbitmq_env close_fails)
    as (before & _ & _ & _ & H).
  - vm_compute. repeat constructor.
  - vm_compute. discriminate.
  - exists before. apply H. discriminate.
Defined.

(** ** What reaches standard output *)

Lemma stdout_of_app t1 t2 : stdout_of (t1 ++ t2) = stdout_of t1 +:+ stdout_of t2.
Proof.
  induction t1 as [|e t1 IH]; [reflexivity|].
  destruct e; cbn [app stdout_of]; try exact IH.
  rewrite IH. symmetry. apply append_assoc.
Qed.

Lemma stdout_handled ds :
  stdout_of (flat_map handled ds) = output_lines (List.map printed ds).
Proof.
  induction ds as [|d ds IH]; [reflexivity|].
  cbn [flat_map List.map output_lines]. rewrite stdout_of_app, IH.
  unfold handled, printed. cbn [stdout_of].
  rewrite !append_assoc. reflexivity.
Qed.

Lemma stdout_loop_events ds :
  stdout_of (loop_events ds) = output_lines (List.map printed (normals_prefix ds)).
Proof.
  unfold loop_events. rewrite stdout_of_app, stdout_handled. cbn [stdout_of].
  generalize (output_lines (List.map printed (normals_prefix ds))).
  intros s. induction s as [|x s IH]; [reflexivity | exact (f_equal (String x) IH)].
Qed.

Lemma append_empty_r (s : string) : s +:+ "" = s.
Proof. induction s as [|x s IH]; [reflexivity | exact (f_equal (String x) IH)]. Qed.

Lemma consume_in_loop ds : ConsumeMessage ∈ loop_events ds.
Proof. unfold loop_events. apply elem_of_app. right. do 1 right. left. Qed.

Ltac find_loop :=
  first [ apply consume_in_loop
        | apply elem_of_app; left; apply consume_in_loop
        | apply elem_of_app; right; find_loop ].

Lemma loop_reached es environ b :
  ConsumeMessage ∈ (run es environ b).2 <->
  (exists c, load environ = inr c) /\ connectedb b && bootstrappedb b = true.
Proof.
  rewrite run_course. unfold connectedb, bootstrappedb.
  course_cases; unfold died; cbn [andb];
    (split;
     [ intros Hin; try (exfalso; elems; discriminate); (split; [eauto | reflexivity])
     | intros [[c' Hc'] Hb]; try discriminate; find_loop ]).
Qed.

Lemma stdout_cases es environ b :
  ConsumeMessage ∈ (run es environ b).2 ->
  stdout_of (run es environ b).2
  = output_lines (List.map printed (normals_prefix (deliveries b))).
Proof.
  rewrite run_course.
  course_cases; unfold died; intros Hin;
    try (exfalso; elems; discriminate);
    rewrite !stdout_of_app, stdout_loop_events; cbn [stdout_of];
    rewrite ?append_empty_r; reflexivity.
Qed.

Lemma to_int_small z : 0 <= z < 2 ^ 31 -> to_int z = z.
Proof. intros H. unfold to_int. rewrite Z.mod_small; lia. Qed.

Lemma take_chars_all s : take_chars (String.length s) s = s.
Proof. induction s as [|x s IH]; [reflexivity | exact (f_equal (String x) IH)]. Qed.

Lemma printed_short d :
  len (body (message d.2)) < 2 ^ 31 ->
  printed d = until_nul (bytes (body (message d.2))).
Proof.
  intros H. unfold printed, fmt_precision_s.
  rewrite to_int_small by (unfold len in *; lia).
  unfold len. destruct (Z.ltb_spec (Z.of_nat (String.length (bytes (body (message d.2))))) 0);
    [lia|].
  now rewrite Nat2Z.id, take_chars_all.
Qed.

Lemma until_nul_none s : NUL ∉ list_ascii_of_string s -> until_nul s = s.
Proof.
  induction s as [|x s IH]; [reflexivity|]. cbn [list_ascii_of_string until_nul].
  intros H. apply not_elem_of_cons in H as [Hx Hs].
  destruct (Ascii.eqb_spec x NUL) as [->|_]; [contradiction|].
  now rewrite IH.
Qed.

(** C8, as stated, fails: a body of the three bytes 'a', NUL, 'b' is
    received, and the output has the line of the body with 'a' alone; the
    raw body occurs nowhere in it. *)
Lemma raw_body_counterexample :
  stdout_of (run no_error_string rabbitmq_env binary_delivery).2
  = "received message: a" +:+ LF +:+ "irrigating..." +:+ LF
  /\ String.index 0 nul_body
       (stdout_of (run no_error_string rabbitmq_env binary_delivery).2) = None.
Proof. split; vm_compute; reflexivity. Qed.

Lemma normals_prefix_split received rest :
  Forall (fun d => reply_type d.1 = AMQP_RESPONSE_NORMAL) received ->
  (forall d, head rest = Some d -> reply_type d.1 <> AMQP_RESPONSE_NORMAL) ->
  normals_prefix (received ++ rest) = received.
Proof.
  intros Hn Hrest. rewrite normals_prefix_app by assumption.
  destruct rest as [|d rest]; [apply app_nil_r|].
  rewrite normals_prefix_stop by (apply Hrest; reflexivity). apply app_nil_r.
Qed.

Lemma map_printed (f : amqp_rpc_reply_t * amqp_envelope_t -> string) ds :
  Forall (fun d => printed d = f d) ds -> List.map printed ds = List.map f ds.
Proof.
  induction 1 as [|d ds Hd _ IH]; [reflexivity|].
  cbn [List.map]. now rewrite Hd, IH.
Qed.

(** C8, amended: in a run that reaches the loop, standard output is, for
    each envelope received and in their order, the line "received message: "
    with the body's bytes up to its first NUL byte, then the line
    "irrigating..."; the bytes are the whole body when it holds no NUL byte.
    (Bodies shorter than 2^31 bytes, so that the length fits the int that
    printf takes.) *)
Theorem received_bodies_printed (es : Z -> string) (environ : gmap string string)
    (b : broker) (received rest : list (amqp_rpc_reply_t * amqp_envelope_t)) :
  ConsumeMessage ∈ (run es environ b).2 ->
  deliveries b = received ++ rest ->
  Forall (fun d => reply_type d.1 = AMQP_RESPONSE_NORMAL) received ->
  (forall d, head rest = Some d -> reply_type d.1 <> AMQP_RESPONSE_NORMAL) ->
  Forall (fun d => len (body (message d.2)) < 2 ^ 31) received ->
  stdout_of (run es environ b).2
  = output_lines (List.map (fun d => until_nul (bytes (body (message d.2)))) received)
  /\ (Forall (fun d => NUL ∉ list_ascii_of_string (bytes (body (message d.2)))) received ->
      stdout_of (run es environ b).2
      = output_lines (List.map (fun d => bytes (body (message d.2))) received)).
Proof.
  intros Hloop Hdel Hnormal Hrest Hshort.
  rewrite (stdout_cases _ _ _ Hloop), Hdel, normals_prefix_split by assumption.
  split.
  - f_equal. apply map_printed.
    eapply Forall_impl; [exact Hshort|]. intros d Hd. now apply printed_short.
  - intros Hnul. f_equal. apply map_printed.
    rewrite Forall_forall in *. intros d Hd.
    rewrite printed_short by auto. apply until_nul_none. auto.
Qed.

Lemma received_bodies_printed_witness :
  stdout_of (run no_error_string rabbitmq_env scenario).2
  = "received message: open_valve_1" +:+ LF +:+ "irrigating..." +:+ LF
    +:+ "received message: close_valve_1" +:+ LF +:+ "irrigating..." +:+ LF.
Proof.
  refine (proj2 (received_bodies_printed no_error_string rabbitmq_env scenario
                   two_valves [(connection_lost, delivery 0 "")] _ _ _ _ _) _).
  - vm_compute. repeat constructor.
  - reflexivity.
  - repeat constructor.
  - intros d [= <-]. discriminate.
  - repeat constructor.
  - constructor; [|constructor; [|constructor]];
      intros H; simpl in H; elems; discriminate.
Defined.

(** ** The configuration in use *)

(** C9, as stated, fails: RABBITMQ_HOST set to the empty string is taken as
    it is, and the socket is opened on the empty host name. *)
Lemma empty_field_counterexample :
  empty_host_env !! "RABBITMQ_HOST" = Some ""
  /\ SocketOpen "" 5672 ∈ (run no_error_string empty_host_env scenario).2
  /\ (run no_error_string empty_host_env scenario).1 = Exited 0.
Proof.
  split; [|split].
  - vm_compute. reflexivity.
  - vm_compute. repeat constructor.
  - vm_compute. reflexivity.
Qed.

(** C9, amended: a run that does anything but write to standard output has
    found all five variables set (to any text, the empty one too; the port
    is [atoi] of its text), and every call that takes a field of the
    configuration takes the value that was read. *)
Theorem config_from_environment (es : Z -> string) (environ : gmap string string)
    (b : broker) (e0 : event) :
  e0 ∈ (run es environ b).2 ->
  (forall s, e0 <> Stdout s) ->
  exists c,
    from_environment environ c
    /\ forall e, e ∈ (run es environ b).2 -> carries c e.
Proof.
  rewrite run_course. unfold course.
  destruct (load environ) as [key|c] eqn:Hload.
  - cbn [snd]. intros Hin Hne. exfalso. elems. eapply Hne. eassumption.
  - intros _ _. exists c. split; [apply load_inr; assumption|].
    course_cases; unfold died; intros e Hin; elems;
      try (loop_elem Hin); subst; cbn [carries]; auto.
Qed.

Lemma config_from_environment_witness :
  exists c,
    from_environment rabbitmq_env c
    /\ forall e, e ∈ (run no_error_string rabbitmq_env scenario).2 -> carries c e.
Proof.
  apply (config_from_environment no_error_string rabbitmq_env scenario NewConnection).
  - vm_compute. repeat constructor.
  - discriminate.
Defined.

(** ** Determinism *)

Lemma normal_classify es x :
  normal x = match classify es x with Normal => true | _ => false end.
Proof.
  unfold normal, classify.
  destruct (reply_type x); try reflexivity.
  repeat (destruct (_ =? _)); reflexivity.
Qed.

Lemma normal_same es x y : classify es x = classify es y -> normal x = normal y.
Proof. intros H. now rewrite (normal_classify es x), (normal_classify es y), H. Qed.

Lemma rpc_stage_same es calls x y context rest1 rest2 :
  classify es x = classify es y -> rest1 = rest2 ->
  rpc_stage es calls x context rest1 = rpc_stage es calls y context rest2.
Proof.
  intros Hxy ->. unfold rpc_stage, died. now rewrite (normal_same es x y Hxy), Hxy.
Qed.

Lemma loop_same es ds1 ds2 :
  Forall2 (same_delivery es) ds1 ds2 ->
  loop_exits ds1 = loop_exits ds2 /\ loop_events ds1 = loop_events ds2.
Proof.
  unfold loop_exits, loop_events.
  induction 1 as [|d1 d2 ds1 ds2 [Hc Hb] _ [IHx IHe]]; [split; reflexivity|].
  cbn [existsb normals_prefix]. rewrite (normal_same es _ _ Hc), IHx.
  split; [reflexivity|].
  destruct (normal d2.1); [|reflexivity].
  cbn [flat_map]. rewrite <- !app_assoc, IHe.
  unfold handled. now rewrite Hb.
Qed.

Lemma load_same environ1 environ2 :
  same_environment environ1 environ2 -> load environ1 = load environ2.
Proof.
  intros H. apply required_keys_cases in H as (H1 & H2 & H3 & H4 & H5).
  unfold load. now rewrite H1, H2, H3, H4, H5.
Qed.

Lemma session_same es c b1 b2 :
  same_results es b1 b2 -> session es c b1 = session es c b2.
Proof.
  intros (Hs & Ho & Hl & Hc & Hq & Hb & Hd & Hcc & Hcn).
  assert (shutdown es b1 = shutdown es b2) as Hshut.
  { unfold shutdown.
    apply rpc_stage_same; [assumption|].
    apply rpc_stage_same; [assumption|reflexivity]. }
  assert (consuming es b1 = consuming es b2) as Hcons.
  { unfold consuming. destruct (loop_same _ _ _ Hd) as [-> ->]. now rewrite Hshut. }
  assert (bootstrap es c b1 = bootstrap es c b2) as Hboot.
  { unfold bootstrap.
    apply rpc_stage_same; [assumption|].
    apply rpc_stage_same; [assumption|].
    apply rpc_stage_same; [assumption|].
    apply rpc_stage_same; assumption. }
  unfold session. now rewrite Hs, Ho, Hboot.
Qed.

Lemma course_same es environ1 environ2 b1 b2 :
  same_environment environ1 environ2 -> same_results es b1 b2 ->
  course es environ1 b1 = course es environ2 b2.
Proof.
  intros Henv Hres.
  unfold course. rewrite (load_same _ _ Henv).
  destruct (load environ2) as [key|c]; [reflexivity|].
  now apply session_same.
Qed.

(** C10: two runs with the same values for the five variables and the same
    sequence of broker results (the socket's, the classification of each
    reply, the classification and body of each delivery) write the same to
    standard output and to the error stream and end alike; indeed they leave
    the same trace. *)
Theorem deterministic (es : Z -> string) (environ1 environ2 : gmap string string)
    (b1 b2 : broker) :
  same_environment environ1 environ2 ->
  same_results es b1 b2 ->
  (run es environ1 b1).1 = (run es environ2 b2).1
  /\ stdout_of (run es environ1 b1).2 = stdout_of (run es environ2 b2).2
  /\ stderr_of (run es environ1 b1).2 = stderr_of (run es environ2 b2).2
  /\ (run es environ1 b1).2 = (run es environ2 b2).2.
Proof.
  intros Henv Hres. rewrite !run_course, (course_same _ _ _ _ _ Henv Hres).
  repeat split.
Qed.

Lemma deterministic_witness :
  (run no_error_string rabbitmq_env scenario).1
  = (run no_error_string larger_env scenario_again).1
  /\ stdout_of (run no_error_string rabbitmq_env scenario).2
     = stdout_of (run no_error_string larger_env scenario_again).2
  /\ stderr_of (run no_error_string rabbitmq_env scenario).2
     = stderr_of (run no_error_string larger_env scenario_again).2
  /\ (run no_error_string rabbitmq_env scenario).2
     = (run no_error_string larger_env scenario_again).2.
Proof.
  apply (deterministic no_error_string rabbitmq_env larger_env scenario scenario_again).
  - unfold same_environment.
    apply (proj2 (required_keys_cases
                    (fun key => rabbitmq_env !! key = larger_env !! key))).
    repeat split; vm_compute; reflexivity.
  - unfold same_results, scenario, scenario_again, two_valves. cbn [app].
    repeat (split; [reflexivity|]).
    split; [|split; reflexivity].
    cbn [deliveries]. repeat (constructor; [split; reflexivity|]). constructor.
Defined.

(** * Further properties of [main] and what it calls *)

(** ** Endings *)

Lemma loop_exits_false ds :
  loop_exits ds = false <->
  Forall (fun d => reply_type d.1 = AMQP_RESPONSE_NORMAL) ds.
Proof.
  split; [|apply loop_exits_all_normal].
  unfold loop_exits. induction ds as [|d ds IH]; [constructor|].
  cbn [existsb]. intros H. apply orb_false_iff in H as [Hd Hds].
  constructor; [|auto].
  apply negb_false_iff, normal_true in Hd. exact Hd.
Qed.

Lemma last_loop_events ds : last (loop_events ds) = Some ConsumeMessage.
Proof.
  unfold loop_events.
  change [MaybeReleaseBuffers; ConsumeMessage]
    with ([MaybeReleaseBuffers] ++ [ConsumeMessage]).
  rewrite app_assoc. apply last_snoc.
Qed.

(** X1: a process ends with status 0 or 1, or never. It never ends exactly
    when the environment is complete, the socket connects, the four
    bootstrap replies are normal and every delivery is normal; the last
    thing it did is then a receive. *)
Theorem endings (es : Z -> string) (environ : gmap string string) (b : broker) :
  (forall status, (run es environ b).1 = Exited status -> status = 0 \/ status = 1)
  /\ ((run es environ b).1 = Blocked <->
        configured environ /\ connected b /\ bootstrapped b
        /\ Forall (fun d => reply_type d.1 = AMQP_RESPONSE_NORMAL) (deliveries b))
  /\ ((run es environ b).1 = Blocked ->
        last (run es environ b).2 = Some ConsumeMessage).
Proof.
  split; [|split].
  - rewrite ending_cases. intros status.
    repeat case_match; intros [= <-]; auto.
  - rewrite ending_cases.
    pose proof (load_configured environ) as Hcfg.
    pose proof (connectedb_spec b) as Hconn.
    pose proof (bootstrappedb_spec b) as Hboot.
    pose proof (loop_exits_false (deliveries b)) as Hloop.
    destruct (load environ) as [key|c] eqn:Hload.
    + split; [discriminate|]. intros (Hc & _). apply Hcfg in Hc as [c Hc]. discriminate.
    + assert (configured environ) as Hyes by (apply Hcfg; eauto).
      destruct (connectedb b), (bootstrappedb b), (loop_exits (deliveries b)),
        (closedb b); cbn [andb];
        intuition (try discriminate; try congruence).
  - rewrite run_course.
    course_cases; try discriminate. intros _.
    rewrite !app_assoc, last_app, last_loop_events. reflexivity.
Qed.

Lemma endings_witness :
  (run no_error_string rabbitmq_env
       (mk_broker true 0 normal_reply normal_reply normal_reply normal_reply
                  two_valves normal_reply normal_reply)).1 = Blocked.
Proof.
  apply (proj1 (proj2 (endings no_error_string rabbitmq_env _))).
  split; [exact rabbitmq_env_configured|].
  split; [split; reflexivity|].
  split; [split; [|split; [|split]]; reflexivity|].
  cbn [deliveries]. unfold two_valves.
  constructor; [reflexivity|]. constructor; [reflexivity|]. constructor.
Defined.

(** ** Diagnostics *)

Lemma diagnostics_app t1 t2 : diagnostics (t1 ++ t2) = diagnostics t1 ++ diagnostics t2.
Proof. apply omap_app. Qed.

Lemma diagnostics_handled ds : diagnostics (flat_map handled ds) = [].
Proof.
  induction ds as [|d ds IH]; [reflexivity|].
  cbn [flat_map]. rewrite diagnostics_app, IH. reflexivity.
Qed.

Lemma diagnostics_loop ds : diagnostics (loop_events ds) = [].
Proof. unfold loop_events. rewrite diagnostics_app, diagnostics_handled. reflexivity. Qed.

(** X2: a process that ends with status 0, or never ends, writes nothing to
    the error stream; one that lacks a variable writes nothing there either
    (its message goes to standard output); and one that has its five
    variables and ends with status 1 writes one diagnostic there, as the
    last thing it does. *)
Theorem one_diagnostic (es : Z -> string) (environ : gmap string string) (b : broker) :
  ((run es environ b).1 <> Exited 1 -> diagnostics (run es environ b).2 = [])
  /\ (~ configured environ -> diagnostics (run es environ b).2 = [])
  /\ (configured environ -> (run es environ b).1 = Exited 1 ->
      exists s, last (run es environ b).2 = Some (Stderr s)
                /\ diagnostics (run es environ b).2 = [s]).
Proof.
  pose proof (load_configured environ) as Hcfg.
  rewrite run_course. unfold course.
  destruct (load environ) as [key|c] eqn:Hload.
  - assert (~ configured environ) as Hno
      by (intros Hc; apply Hcfg in Hc as [c Hc]; discriminate).
    cbn [fst snd]. split; [|split]; [reflexivity | reflexivity | contradiction].
  - assert (configured environ) as Hyes by (apply Hcfg; eauto).
    course_cases; unfold died;
      (split; [|split]);
      try contradiction;
      try (intros H; exfalso; apply H; reflexivity);
      try discriminate;
      try (intros _; rewrite ?diagnostics_app, ?diagnostics_loop; reflexivity);
      (intros _ _; eexists; split;
       [ first [reflexivity | rewrite !app_assoc; apply last_snoc]
       | rewrite ?diagnostics_app, ?diagnostics_loop; reflexivity ]).
Qed.

Lemma one_diagnostic_witness :
  exists s,
    last (run no_error_string rabbitmq_env declare_fails).2 = Some (Stderr s)
    /\ diagnostics (run no_error_string rabbitmq_env declare_fails).2 = [s].
Proof.
  apply (proj2 (proj2 (one_diagnostic no_error_string rabbitmq_env declare_fails))).
  - exact rabbitmq_env_configured.
  - vm_compute. reflexivity.
Defined.

(** ** What is closed and destroyed *)

Ltac find_last :=
  first [ apply list_elem_of_here | apply elem_of_app; right; find_last ].

(** X3: the connection is destroyed exactly in the runs that end with
    status 0, and it is then the last call; a run ending with status 1 leaves
    it as it is. *)
Theorem connection_destroyed_on_success (es : Z -> string)
    (environ : gmap string string) (b : broker) :
  (DestroyConnection ∈ (run es environ b).2 <-> (run es environ b).1 = Exited 0)
  /\ ((run es environ b).1 = Exited 0 ->
      last (run es environ b).2 = Some DestroyConnection).
Proof.
  rewrite run_course.
  course_cases; unfold died;
    (split; [split|]);
    try discriminate;
    try reflexivity;
    try (intros Hin; exfalso; elems; try discriminate; loop_elem Hin; discriminate);
    try (intros _; find_last);
    try (intros _; rewrite !app_assoc; apply last_snoc).
Qed.

(** X4: nothing is rolled back. When the socket or a bootstrap reply fails,
    the process ends without closing the channel or the connection and
    without destroying the connection. *)
Theorem no_rollback (es : Z -> string) (environ : gmap string string) (b : broker)
    (e : event) :
  ~ (connected b /\ bootstrapped b) ->
  e ∈ (run es environ b).2 ->
  ~ close_event e /\ e <> DestroyConnection.
Proof.
  rewrite run_course. unfold connected, bootstrapped.
  course_cases; unfold died; intros Hfail Hin;
    try (exfalso; apply Hfail; reflect_hyps; repeat split; assumption);
    (split; [intros [(ch & code & ->)|(code & ->)] | intros ->]);
    elems; discriminate.
Qed.

Lemma no_rollback_witness :
  ~ close_event (QueueDeclare 1 (mk_bytes "irrigation") 1 0 0 1 [])
  /\ QueueDeclare 1 (mk_bytes "irrigation") 1 0 0 1 [] <> DestroyConnection.
Proof.
  apply (no_rollback no_error_string rabbitmq_env declare_fails).
  - intros [_ (_ & _ & H & _)]. discriminate.
  - vm_compute. repeat constructor.
Defined.

Lemma connection_destroyed_on_success_witness :
  last (run no_error_string rabbitmq_env scenario).2 = Some DestroyConnection.
Proof.
  apply (proj2 (connection_destroyed_on_success no_error_string rabbitmq_env scenario)).
  vm_compute. reflexivity.
Defined.

(** ** The order of the calls in the loop *)

Lemma guarded_sound a b t :
  forall prev, guarded a b prev t = true ->
  forall t1 t2, t = t1 ++ b :: t2 ->
  match t1 with [] => prev = Some a | _ :: _ => exists t0, t1 = t0 ++ [a] end.
Proof.
  induction t as [|e t IH]; intros prev H t1 t2 Heq.
  - destruct t1; discriminate.
  - cbn [guarded] in H. apply andb_true_iff in H as [Hhere Hrest].
    destruct t1 as [|x t1]; cbn [app] in Heq; injection Heq as -> ->.
    + rewrite decide_True in Hhere by reflexivity.
      apply bool_decide_eq_true in Hhere. exact Hhere.
    + specialize (IH _ Hrest t1 t2 eq_refl).
      destruct t1 as [|y t1].
      * injection IH as ->. exists []. reflexivity.
      * destruct IH as [t0 ->]. exists (x :: t0). reflexivity.
Qed.

Lemma guarded_each_preceded_by a b t :
  guarded a b None t = true -> each_preceded_by a b t.
Proof.
  intros H t1 t2 Heq. pose proof (guarded_sound a b t None H t1 t2 Heq) as Hs.
  destruct t1; [discriminate | exact Hs].
Qed.

Lemma guarded_app a b t1 t2 :
  forall prev,
  guarded a b prev (t1 ++ t2)
  = guarded a b prev t1
    && guarded a b (match last t1 with Some e => Some e | None => prev end) t2.
Proof.
  induction t1 as [|e t1 IH]; intros prev; [reflexivity|].
  cbn [app guarded]. rewrite IH, last_cons, andb_assoc.
  destruct (last t1); reflexivity.
Qed.

Lemma guarded_absent a b prev t : b ∉ t -> guarded a b prev t = true.
Proof.
  revert prev. induction t as [|e t IH]; intros prev Hb; [reflexivity|].
  apply not_elem_of_cons in Hb as [Hne Hb].
  cbn [guarded]. rewrite decide_False by congruence. now apply IH.
Qed.

Lemma last_handled ds :
  last (flat_map handled ds) = None \/ last (flat_map handled ds) = Some DestroyEnvelope.
Proof.
  induction ds as [|d ds IH]; [now left|]. right.
  cbn [flat_map]. rewrite last_app.
  destruct IH as [-> | ->]; reflexivity.
Qed.

Lemma guarded_release_handled prev ds :
  guarded MaybeReleaseBuffers ConsumeMessage prev (flat_map handled ds) = true.
Proof.
  revert prev. induction ds as [|d ds IH]; intros prev; [reflexivity|].
  cbn [flat_map]. rewrite guarded_app, IH, andb_true_r.
  unfold handled. cbn [guarded].
  repeat (case_decide; try discriminate; try congruence); reflexivity.
Qed.

Lemma guarded_release_loop prev ds :
  guarded MaybeReleaseBuffers ConsumeMessage prev (loop_events ds) = true.
Proof.
  unfold loop_events. rewrite guarded_app, guarded_release_handled.
  cbn [guarded andb]. repeat (case_decide; try discriminate; try congruence); reflexivity.
Qed.

Lemma guarded_irrigated_handled prev ds :
  guarded (Stdout ("irrigating..." +:+ LF)) DestroyEnvelope prev (flat_map handled ds)
  = true.
Proof.
  revert prev. induction ds as [|d ds IH]; intros prev; [reflexivity|].
  cbn [flat_map]. rewrite guarded_app, IH, andb_true_r.
  unfold handled. cbn [guarded].
  repeat (case_decide; try discriminate; try congruence); reflexivity.
Qed.

Lemma guarded_irrigated_loop prev ds :
  guarded (Stdout ("irrigating..." +:+ LF)) DestroyEnvelope prev (loop_events ds) = true.
Proof.
  unfold loop_events. rewrite guarded_app, guarded_irrigated_handled.
  cbn [guarded andb]. repeat (case_decide; try discriminate; try congruence); reflexivity.
Qed.

Lemma occurrences_consume_loop ds :
  occurrences ConsumeMessage (loop_events ds) = S (length (normals_prefix ds)).
Proof.
  unfold loop_events. rewrite occurrences_app, occurrences_handled.
  rewrite (list_sum_map_const _ 1) by apply received_once.
  replace (occurrences _ [MaybeReleaseBuffers; ConsumeMessage]) with 1%nat
    by (symmetry; count_events).
  lia.
Qed.

Lemma occurrences_destroy_loop ds :
  occurrences DestroyEnvelope (loop_events ds) = length (normals_prefix ds).
Proof.
  unfold loop_events. rewrite occurrences_app, occurrences_handled.
  rewrite (list_sum_map_const _ 1) by (intros d; unfold handled; count_events).
  replace (occurrences _ [MaybeReleaseBuffers; ConsumeMessage]) with 0%nat
    by (symmetry; count_events).
  lia.
Qed.

Ltac guarded_pieces :=
  rewrite ?guarded_app;
  repeat match goal with
    | |- _ && _ = true => apply andb_true_intro; split
    end;
  first [ apply guarded_release_loop
        | apply guarded_irrigated_loop
        | apply guarded_absent; intros Hin; elems; discriminate ].

(** X5: in every run each receive comes right after the buffers were
    released, and each envelope is destroyed right after the line that tells
    of its irrigation; in a run that reaches the loop every receive but the
    last one is matched by an envelope destroyed. *)
Theorem loop_discipline (es : Z -> string) (environ : gmap string string) (b : broker) :
  each_preceded_by MaybeReleaseBuffers ConsumeMessage (run es environ b).2
  /\ each_preceded_by (Stdout ("irrigating..." +:+ LF)) DestroyEnvelope
                      (run es environ b).2
  /\ (ConsumeMessage ∈ (run es environ b).2 ->
      occurrences ConsumeMessage (run es environ b).2
      = S (occurrences DestroyEnvelope (run es environ b).2)).
Proof.
  rewrite run_course.
  course_cases; unfold died; (split; [|split]);
    try (apply guarded_each_preceded_by; guarded_pieces);
    try (intros Hin; exfalso; elems; discriminate);
    intros _; rewrite !occurrences_app, occurrences_consume_loop,
                occurrences_destroy_loop;
    repeat (rewrite occurrences_cons; case_decide; try discriminate; try congruence);
    change (occurrences ConsumeMessage []) with 0%nat in *;
    change (occurrences DestroyEnvelope []) with 0%nat in *;
    lia.
Qed.

Lemma loop_discipline_witness :
  occurrences ConsumeMessage (run no_error_string rabbitmq_env scenario).2 = 3%nat.
Proof.
  rewrite (proj2 (proj2 (loop_discipline no_error_string rabbitmq_env scenario))).
  - vm_compute. reflexivity.
  - vm_compute. repeat constructor.
Defined.

(** ** The receive that ends the loop *)

(** X6: how the receive that ends the loop failed, and what the script holds
    after it, changes nothing: no diagnostic tells of it, and the trace and
    the status are those of any other failed receive at that place. *)
Theorem failing_receive_ignored (es : Z -> string) (environ : gmap string string)
    (b : broker) (received : list (amqp_rpc_reply_t * amqp_envelope_t))
    (last1 last2 : amqp_rpc_reply_t * amqp_envelope_t)
    (rest1 rest2 : list (amqp_rpc_reply_t * amqp_envelope_t)) :
  Forall (fun d => reply_type d.1 = AMQP_RESPONSE_NORMAL) received ->
  reply_type last1.1 <> AMQP_RESPONSE_NORMAL ->
  reply_type last2.1 <> AMQP_RESPONSE_NORMAL ->
  run es environ (with_deliveries b (received ++ last1 :: rest1))
  = run es environ (with_deliveries b (received ++ last2 :: rest2)).
Proof.
  intros Hn H1 H2. rewrite !run_course. unfold course.
  destruct (load environ) as [key|c]; [reflexivity|].
  unfold session, bootstrap, consuming, shutdown, with_deliveries.
  cbn [tcp_socket_new_ok socket_open_status login_reply channel_open_reply
       queue_declare_reply basic_consume_reply deliveries channel_close_reply
       connection_close_reply].
  rewrite !loop_exits_at by assumption.
  unfold loop_events.
  rewrite !normals_prefix_app, !normals_prefix_stop by assumption.
  reflexivity.
Qed.

Lemma failing_receive_ignored_witness :
  run no_error_string rabbitmq_env
      (with_deliveries scenario (two_valves ++ (not_found, delivery 5 "x") :: two_valves))
  = run no_error_string rabbitmq_env scenario.
Proof.
  apply (failing_receive_ignored no_error_string rabbitmq_env scenario two_valves
           (not_found, delivery 5 "x") (connection_lost, delivery 0 "") two_valves []).
  - repeat constructor.
  - discriminate.
  - discriminate.
Defined.

(** ** The stage that is reported *)

(** X7: of the four bootstrap replies the first, in the order of the calls,
    that is not normal is the one reported: the process ends with status 1,
    its one diagnostic is that reply's, under the context of its stage, and
    it has written nothing to standard output and received nothing. *)
Theorem first_failure_reported (es : Z -> string) (environ : gmap string string)
    (b : broker) (before after : list (string * amqp_rpc_reply_t))
    (context : string) (x : amqp_rpc_reply_t) :
  configured environ ->
  connected b ->
  bootstrap_replies b = before ++ (context, x) :: after ->
  Forall (fun r => reply_type r.2 = AMQP_RESPONSE_NORMAL) before ->
  reply_type x <> AMQP_RESPONSE_NORMAL ->
  (run es environ b).1 = Exited 1
  /\ diagnostics (run es environ b).2
     = [context +:+ ": " +:+ report (classify es x) +:+ LF]
  /\ stdout_of (run es environ b).2 = ""
  /\ ConsumeMessage ∉ (run es environ b).2.
Proof.
  intros Hcfg [Hsock Hopen] Hsplit Hbefore Hx.
  apply load_configured in Hcfg as [c Hc].
  rewrite run_course. unfold course. rewrite Hc.
  unfold session, bootstrap, rpc_stage. rewrite Hsock, Hopen. cbn [negb Z.eqb].
  unfold bootstrap_replies in Hsplit.
  apply normal_false in Hx.
  destruct before as [|r1 [|r2 [|r3 [|r4 [|r5 before]]]]];
    cbn [app] in Hsplit; try discriminate;
    repeat match goal with
      | H : Forall _ (_ :: _) |- _ =>
          let Hr := fresh "Hr" in
          apply Forall_cons in H as [Hr H]; apply normal_true in Hr
      end;
    injection Hsplit; intros; subst; cbn [snd] in *;
    repeat match goal with
      | H : normal _ = _ |- _ => rewrite H; clear H
      end;
    cbn [fst snd]; unfold died;
    (repeat split; try reflexivity; intros Hin; elems; discriminate).
Qed.

Lemma first_failure_reported_witness :
  diagnostics (run no_error_string rabbitmq_env declare_fails).2
  = ["declaring queue: server channel error 404h, "
     +:+ "message: NOT_FOUND - no queue 'irrigation'" +:+ LF].
Proof.
  refine (proj1 (proj2 (first_failure_reported no_error_string rabbitmq_env declare_fails
            [("login", normal_reply); ("opening channel", normal_reply)]
            [("consuming", normal_reply)] "declaring queue" not_found _ _ _ _ _))).
  - exact rabbitmq_env_configured.
  - split; reflexivity.
  - reflexivity.
  - repeat constructor.
  - discriminate.
Defined.

(** ** The port *)

Lemma digits_value_no_digit acc s : no_digit s -> digits_value acc s = acc.
Proof.
  unfold no_digit. destruct s as [|c s]; [reflexivity|].
  cbn [list_ascii_of_string digits_value]. intros H.
  apply Forall_cons in H as [-> _]. reflexivity.
Qed.

Lemma skip_space_no_digit s : no_digit s -> no_digit (skip_space s).
Proof.
  unfold no_digit. induction s as [|c s IH]; [intros H; exact H|].
  cbn [skip_space]. destruct (isspace c); [|intros H; exact H].
  cbn [list_ascii_of_string]. intros H. apply Forall_cons in H as [_ H]. auto.
Qed.

Lemma atoi_no_digit p : no_digit p -> atoi p = 0.
Proof.
  intros H. apply skip_space_no_digit in H. unfold atoi.
  destruct (skip_space p) as [|c s]; [reflexivity|].
  assert (no_digit s) as Hs
    by (unfold no_digit in *; cbn [list_ascii_of_string] in H;
        apply Forall_cons in H as [_ H]; exact H).
  assert (digits_value 0 (String c s) = 0) as Hall by now apply digits_value_no_digit.
  assert (digits_value 0 s = 0) as Htail by now apply digits_value_no_digit.
  destruct c as [[] [] [] [] [] [] [] []];
    cbv iota beta; rewrite ?Hall, ?Htail; reflexivity.
Qed.

(** X8: the port is not checked. When the text of RABBITMQ_PORT holds no
    digit, the process goes on and opens the socket on port 0. *)
Theorem port_not_validated (es : Z -> string) (environ : gmap string string)
    (b : broker) (h p : string) :
  configured environ ->
  environ !! "RABBITMQ_HOST" = Some h ->
  environ !! "RABBITMQ_PORT" = Some p ->
  no_digit p ->
  tcp_socket_new_ok b = true ->
  SocketOpen h 0 ∈ (run es environ b).2.
Proof.
  intros Hcfg Hh Hp Hnd Hsock.
  apply load_configured in Hcfg as [c Hc].
  pose proof (proj1 (load_inr _ _) Hc) as (Hhost & (p' & Hport & Hatoi) & _).
  assert (host c = h) as <- by congruence.
  assert (port c = 0) as Hzero
    by (rewrite Hatoi; replace p' with p by congruence; now apply atoi_no_digit).
  rewrite run_course. unfold course. rewrite Hc.
  unfold session. rewrite Hsock, Hzero. cbn [negb].
  destruct (socket_open_status b =? 0); cbn [negb snd].
  - apply elem_of_app. left. do 2 right. left.
  - do 2 right. left.
Qed.

Lemma port_not_validated_witness :
  SocketOpen "localhost" 0 ∈ (run no_error_string amqp_port_env scenario).2.
Proof.
  apply (port_not_validated no_error_string amqp_port_env scenario "localhost" "amqp").
  - unfold configured.
    apply (proj2 (required_keys_cases (fun key => is_Some (amqp_port_env !! key)))).
    repeat split; eexists; vm_compute; reflexivity.
  - vm_compute. reflexivity.
  - vm_compute. reflexivity.
  - unfold no_digit. cbn [list_ascii_of_string]. repeat constructor.
  - reflexivity.
Defined.

(** ** The method number in the diagnostic *)

Lemma hex_value_digit n : 0 <= n < 16 -> hex_value (hex_digit n) = n.
Proof.
  intros H. rewrite <- (Z2Nat.id n) in * by lia.
  destruct H as [_ H]. revert H. generalize (Z.to_nat n). intros k Hk.
  do 16 (destruct k as [|k]; [reflexivity|]). lia.
Qed.

Lemma nibble_spec u i :
  0 <= i -> Z.land (Z.shiftr u (4 * i)) 15 = (u / 2 ^ (4 * i)) mod 16.
Proof.
  intros Hi. rewrite Z.shiftr_div_pow2 by lia.
  change 15 with (Z.ones 4). rewrite Z.land_ones by lia. reflexivity.
Qed.

Lemma parse_hex_fmt_08X z : parse_hex (fmt_08X z) = z mod 2 ^ 32.
Proof.
  unfold parse_hex, fmt_08X, to_uint32.
  rewrite list_ascii_of_string_of_list_ascii.
  assert (0 <= z mod 2 ^ 32 < 2 ^ 32) as Hu by (apply Z.mod_pos_bound; lia).
  generalize dependent (z mod 2 ^ 32). intros u Hu.
  cbn [List.map fold_left].
  rewrite !nibble_spec by lia.
  rewrite !hex_value_digit by (apply Z.mod_pos_bound; lia).
  change (2 ^ (4 * 7)) with 268435456. change (2 ^ (4 * 6)) with 16777216.
  change (2 ^ (4 * 5)) with 1048576. change (2 ^ (4 * 4)) with 65536.
  change (2 ^ (4 * 3)) with 4096. change (2 ^ (4 * 2)) with 256.
  change (2 ^ (4 * 1)) with 16. change (2 ^ (4 * 0)) with 1.
  change (2 ^ 32) with 4294967296 in Hu.
  Z.to_euclidean_division_equations; lia.
Qed.


